(** * nyx connection panel: listing rows and detail pages

    A shallow embedding of [nyx/connections/conn_entry.py] (class
    [ConnectionLine]) and of the Python and library primitives it is
    written with, followed by the properties of the row and detail
    layout.

    Python integers are [Z], Python strings are [string], lists are
    [list].  Calls that can raise return a [result].  The collaborators
    the class only reads (controller, consensus tracker, port usage
    tracker, configuration, stem's lookup tables) are gathered in the
    record [Env]. *)

From Stdlib Require Import ZArith List Bool Ascii String Lia DecimalString.
Import ListNotations.

Open Scope string_scope.
Open Scope Z_scope.

Infix "+++" := String.append (right associativity, at level 60).

(* ------------------------------------------------------------------ *)
(** ** Exceptions *)

Inductive exn := ValueError | IndexError.

Inductive result (A : Type) :=
| Ret (a : A)
| Raise (e : exn).
Arguments Ret {A} a.
Arguments Raise {A} e.

Definition bind {A B} (m : result A) (k : A -> result B) : result B :=
  match m with
  | Ret a => k a
  | Raise e => Raise e
  end.

Notation "x <- m ;; k" := (bind m (fun x => k))
  (at level 61, m at next level, right associativity).

(* ------------------------------------------------------------------ *)
(** ** Python string primitives *)

Module Py.

(** [len(s)] *)
Definition len (s : string) : Z := Z.of_nat (String.length s).

(** [' ' * n]: a negative count gives the empty string. *)
Definition spaces (n : Z) : string :=
  string_of_list_ascii (repeat " "%char (Z.to_nat n)).

(** ['%-ws' % s] for a literal, non-negative width [w]. *)
Definition ljust (w : Z) (s : string) : string := s +++ spaces (w - len s).

(** ['%ws' % s] for a literal, non-negative width [w]. *)
Definition rjust (w : Z) (s : string) : string := spaces (w - len s) +++ s.

(** [('%%-%is' % w) % s]: the width is printed into the format text
    first.  For a negative [w] the text reads [%--5s]; the conversion
    takes both dashes as the left-justify flag and the digits as the
    width, so the field is [|w|] wide. *)
Definition ljust_dyn (w : Z) (s : string) : string := ljust (Z.abs w) s.

(** [s[:n]]: a negative bound counts from the end. *)
Definition slice_to (s : string) (n : Z) : string :=
  if 0 <=? n then String.substring 0 (Z.to_nat n) s
  else String.substring 0 (Z.to_nat (len s + n)) s.

(** ['%s' % n] and ['%i' % n] for an integer. *)
Definition str_of_Z (n : Z) : string := NilZero.string_of_int (Z.to_int n).

Definition is_space (c : ascii) : bool :=
  let n := nat_of_ascii c in
  (Nat.eqb n 32 || (Nat.leb 9 n && Nat.leb n 13))%bool.

Fixpoint lstrip_list (l : list ascii) : list ascii :=
  match l with
  | c :: l' => if is_space c then lstrip_list l' else l
  | [] => []
  end.

(** [s.rstrip()] *)
Definition rstrip (s : string) : string :=
  string_of_list_ascii (rev (lstrip_list (rev (list_ascii_of_string s)))).

(** Index of the last space among the first [n] characters of [l]. *)
Fixpoint rfind_space_list (l : list ascii) (n : nat) (i : Z) : option Z :=
  match n, l with
  | S n', c :: l' =>
      match rfind_space_list l' n' (i + 1) with
      | Some j => Some j
      | None => if Ascii.eqb c " " then Some i else None
      end
  | _, _ => None
  end.

(** [s.rfind(' ', 0, stop)]; [None] stands for [-1]. *)
Definition rfind_space (s : string) (stop : Z) : option Z :=
  let stop' := if stop <? 0 then len s + stop else stop in
  rfind_space_list (list_ascii_of_string s) (Z.to_nat stop') 0.

(** [s[-1]] when [s] is not empty. *)
Definition last_char (s : string) : option ascii :=
  match rev (list_ascii_of_string s) with
  | c :: _ => Some c
  | [] => None
  end.

Definition upper_char (c : ascii) : ascii :=
  let n := nat_of_ascii c in
  if (Nat.leb 97 n && Nat.leb n 122)%bool then ascii_of_nat (n - 32) else c.

(** [s.upper()] *)
Fixpoint upper (s : string) : string :=
  match s with
  | EmptyString => EmptyString
  | String c s' => String (upper_char c) (upper s')
  end.

(** [sep.join(l)] *)
Definition join (sep : string) (l : list string) : string := String.concat sep l.

(** Truth value of [None] or a string. *)
Definition truthy (o : option string) : option string :=
  match o with
  | Some EmptyString => None
  | _ => o
  end.

End Py.
Import Py.

(* ------------------------------------------------------------------ *)
(** ** [stem.util.str_tools.crop]

    The cropping routine of the stem library, which the repository
    imports and does not contain; it is written out here after the
    library (stem 1.x) for the arguments the connection lines pass: the
    message, the size, [min_word_length] (4 unless given) and the ending
    ([Ending.ELLIPSE] unless given); [min_crop] stays 0 and no remainder
    is asked for.  The examples of its documentation are checked at the
    end of the file. *)

Module str_tools.

Inductive Ending := ELLIPSE | HYPHEN.

Definition strip_punct (s : string) : string :=
  match last_char s with
  | Some c => if (Ascii.eqb c "," || Ascii.eqb c ".")%bool then slice_to s (-1) else s
  | None => s
  end.

Definition finish (ending : Ending) (return_msg : string) : string :=
  let return_msg := strip_punct return_msg in
  match ending with
  | ELLIPSE => rstrip return_msg +++ "..."
  | HYPHEN => return_msg
  end.

Definition crop (msg : string) (size : Z) (min_word_length : Z) (ending : Ending)
  : result string :=
  if len msg <=? size then Ret msg
  else if size <? 0 then Raise ValueError
  else if min_word_length <? 0 then Raise ValueError
  else
    let size := match ending with ELLIPSE => size - 3 | HYPHEN => size end in
    let min_word_length :=
      match ending with
      | HYPHEN => if min_word_length =? 0 then 0 else min_word_length + 1
      | ELLIPSE => min_word_length
      end in
    let cut :=
      let return_msg := slice_to msg size in
      match ending with
      | HYPHEN =>
          match last_char return_msg with
          | Some _ => Ret (finish ending (rstrip (slice_to return_msg (-1)) +++ "-"))
          | None => Raise IndexError
          end
      | ELLIPSE => Ret (finish ending return_msg)
      end in
    match rfind_space msg (size + 1) with
    | None => if size <? min_word_length then Ret EmptyString else cut
    | Some last_wordbreak =>
        let last_wordbreak := len (rstrip (slice_to msg last_wordbreak)) in
        if min_word_length <=? size - last_wordbreak - 1 then cut
        else Ret (finish ending (slice_to msg last_wordbreak))
    end.

End str_tools.
Import str_tools.

(* ------------------------------------------------------------------ *)
(** ** Data model *)

(** Modelled from the spec: the closed enumeration [Category] of
    [nyx.connection_panel], which is not part of the sources at hand. *)
Inductive Category :=
| INBOUND | OUTBOUND | EXIT | HIDDEN | SOCKS | CIRCUIT | DIRECTORY | CONTROL.

(** Modelled from the spec: the value of a [Category] member is its
    name; [_get_listing_entry] prints it and measures its length. *)
Definition category_name (c : Category) : string :=
  match c with
  | INBOUND => "INBOUND" | OUTBOUND => "OUTBOUND" | EXIT => "EXIT"
  | HIDDEN => "HIDDEN" | SOCKS => "SOCKS" | CIRCUIT => "CIRCUIT"
  | DIRECTORY => "DIRECTORY" | CONTROL => "CONTROL"
  end.

Definition category_eqb (a b : Category) : bool :=
  match a, b with
  | INBOUND, INBOUND | OUTBOUND, OUTBOUND | EXIT, EXIT | HIDDEN, HIDDEN
  | SOCKS, SOCKS | CIRCUIT, CIRCUIT | DIRECTORY, DIRECTORY | CONTROL, CONTROL => true
  | _, _ => false
  end.

(** Modelled from the spec: the closed enumeration [Listing] of
    [nyx.connection_panel]. *)
Inductive Listing := IP_ADDRESS | FINGERPRINT | NICKNAME.

Definition listing_eqb (a b : Listing) : bool :=
  match a, b with
  | IP_ADDRESS, IP_ADDRESS | FINGERPRINT, FINGERPRINT | NICKNAME, NICKNAME => true
  | _, _ => false
  end.

(** The connection a line displays ([self.connection]).  Times are whole
    seconds. *)
Record Connection := {
  local_address : string;
  local_port : Z;
  remote_address : string;
  remote_port : Z;
  start_time : Z;
  is_legacy : bool
}.

(** Modelled from the spec: the entry behind a line, of which the line
    reads [get_type()] and [is_private()]. *)
Record ConnectionEntry := {
  get_type : Category;
  is_private : bool
}.

(** [ConnectionLine]; [line_id] is the identity of the object, which is
    what the memoisation of its methods keys on. *)
Record ConnectionLine := {
  line_id : nat;
  _entry : ConnectionEntry;
  connection : Connection;
  include_port : bool;
  include_expanded_addresses : bool
}.

(** Modelled from the spec: the three outcomes of the process-ownership
    tracker's [fetch(port)], a process (name, pid) or one of the two
    exceptions [UnresolvedResult] and [UnknownApplication]. *)
Inductive PortUsage :=
| Process (name : string) (pid : option Z)
| UnresolvedResult
| UnknownApplication.

(** Router status entry and server descriptor, with the attributes the
    detail page prints ([published] already formatted by [strftime]). *)
Record RouterStatusEntry := {
  rs_nickname : string;
  rs_or_port : Z;
  rs_dir_port : option Z;
  rs_published : string;
  rs_flags : list string
}.

Record ServerDescriptor := {
  sd_exit_policy : option string;
  sd_operating_system : string;
  sd_tor_version : string;
  sd_contact : option string
}.

(** What the line reads from its collaborators.  Every field is the
    answer of one call in the source; the calls are taken to return. *)
Record Env := {
  (* CONFIG *)
  showExitPort : bool;
  showColumn_fingerprint : bool;
  showColumn_nickname : bool;
  showColumn_destination : bool;
  showColumn_expandedIp : bool;
  (* tor_controller() *)
  get_info_address : option string;
  get_conf_nickname : option string;
  get_info_ip_to_country : string -> option string;
  is_geoip_unavailable : bool;
  get_network_status : string -> option RouterStatusEntry;
  get_server_descriptor : string -> option ServerDescriptor;
  (* nyx.util.tracker.get_consensus_tracker() *)
  get_relay_fingerprint : string -> Z -> option string;
  get_relay_nickname : option string -> option string;
  get_all_relay_fingerprints : string -> list (Z * string);
  (* nyx.util.tracker.get_port_usage_tracker() *)
  fetch : Z -> PortUsage;
  (* stem.util.connection *)
  port_usage : Z -> option string;
  is_private_address : string -> bool;
  (* stem.util.str_tools.time_label(seconds, 1) *)
  time_label : Z -> string;
  (* nyx.connection_panel.CATEGORY_COLOR, nyx.util.ui_tools.get_color,
     curses.A_BOLD *)
  CATEGORY_COLOR : Category -> string;
  get_color : string -> Z;
  A_BOLD : Z;
  (* bound of the lru_cache decorator *)
  maxsize : nat
}.

(* ------------------------------------------------------------------ *)
(** ** [ConnectionLine] *)

Definition LABEL_FORMAT (src dst etc padding : string) : string :=
  src +++ "  -->  " +++ dst +++ "  " +++ etc +++ padding.

Definition LABEL_MIN_PADDING : Z := 2.

Definition or_default (o : option string) (default : string) : string :=
  match o with Some s => s | None => default end.

Section Line.

Variable env : Env.
Variable self : ConnectionLine.

Definition my_type : Category := get_type (_entry self).

(** [get_locale(default)] *)
Definition get_locale (default : string) : string :=
  or_default (get_info_ip_to_country env (remote_address (connection self))) default.

(** [get_fingerprint()], default [None] *)
Definition get_fingerprint : option string :=
  match my_type with
  | OUTBOUND | CIRCUIT | DIRECTORY | EXIT =>
      truthy (get_relay_fingerprint env (remote_address (connection self))
                (remote_port (connection self)))
  | _ => None
  end.

(** [get_fingerprint(default)] for a string default *)
Definition get_fingerprint_or (default : string) : string :=
  or_default get_fingerprint default.

(** [get_nickname(default)] *)
Definition get_nickname (default : string) : string :=
  or_default (truthy (get_relay_nickname env get_fingerprint)) default.

(** [get_destination_label(max_length, include_locale)] *)
Definition dest_include_port : bool :=
  include_port self && (showExitPort env || negb (category_eqb my_type EXIT)).

Definition address_label : string :=
  if is_private (_entry self) then "<scrubbed>" else remote_address (connection self).

Definition port_label : string :=
  if dest_include_port then ":" +++ str_of_Z (remote_port (connection self)) else "".

Definition get_destination_label (max_length : Z) (include_locale : bool)
  : result string :=
  let destination_address := address_label +++ port_label in
  destination_address <-
    (if len destination_address + 5 <=? max_length then
       let space_available := max_length - len destination_address - 3 in
       if category_eqb my_type EXIT && dest_include_port then
         match truthy (port_usage env (remote_port (connection self))) with
         | Some purpose =>
             let purpose :=
               if (space_available <? len purpose) && String.eqb purpose "BitTorrent"
               then "Torrent" else purpose in
             purpose <- crop purpose space_available 4 HYPHEN ;;
             Ret (destination_address +++ " (" +++ purpose +++ ")")
         | None => Ret destination_address
         end
       else if negb (is_private_address env (remote_address (connection self))) then
         let extra_info :=
           if include_locale && negb (is_geoip_unavailable env)
           then [get_locale "??"] else [] in
         match extra_info with
         | [] => Ret destination_address
         | _ => Ret (destination_address +++ " (" +++ join ", " extra_info +++ ")")
         end
       else Ret destination_address
     else Ret destination_address) ;;
  Ret (slice_to destination_address max_length).

(** [get_etc_content(width, listing_type)] *)
Definition is_application (c : Category) : bool :=
  match c with
  | SOCKS | HIDDEN | CONTROL => true
  | _ => false
  end.

(** The label of the process owning the port, or the placeholder of the
    exception the tracker raised. *)
Definition display_label : string :=
  let port := if category_eqb my_type HIDDEN
              then local_port (connection self) else remote_port (connection self) in
  match fetch env port with
  | Process name (Some pid) =>
      if pid =? 0 then name else name +++ " (" +++ str_of_Z pid +++ ")"
  | Process name None => name
  | UnresolvedResult => "resolving..."
  | UnknownApplication => "UNKNOWN"
  end.

(** The guard of the fingerprint column. *)
Definition fingerprint_column (width used_space : Z) : bool :=
  (used_space + 42 <? width) && showColumn_fingerprint env.

(** The columns of a relay connection: the text and the space used. *)
Definition etc_columns (width : Z) (listing_type : Listing) : result (string * Z) :=
  destination_address <- get_destination_label 26 true ;;
  let etc := "" in
  let used_space := 0 in
  match listing_type with
  | IP_ADDRESS =>
      let '(etc, used_space) :=
        if fingerprint_column width used_space
        then (etc +++ ljust 40 (get_fingerprint_or "UNKNOWN") +++ "  ", used_space + 42)
        else (etc, used_space) in
      if (used_space + 10 <? width) && showColumn_nickname env then
        let nickname_space := width - used_space in
        nickname_label <- crop (get_nickname "UNKNOWN") nickname_space 0 ELLIPSE ;;
        Ret (etc +++ ljust_dyn nickname_space nickname_label +++ "  ",
             used_space + (nickname_space + 2))
      else Ret (etc, used_space)
  | FINGERPRINT =>
      if used_space + 17 <? width then
        let nickname_space := width - used_space - 2 in
        let is_locale_included :=
          (used_space + 45 <? width) && showColumn_destination env in
        let nickname_space :=
          if is_locale_included then nickname_space - 28 else nickname_space in
        p <- (if showColumn_nickname env then
                nickname_label <- crop (get_nickname "UNKNOWN") nickname_space 0 ELLIPSE ;;
                Ret (etc +++ ljust_dyn nickname_space nickname_label +++ "  ",
                     used_space + (nickname_space + 2))
              else Ret (etc, used_space)) ;;
        let '(etc, used_space) := p in
        if is_locale_included
        then Ret (etc +++ ljust 26 destination_address +++ "  ", used_space + 28)
        else Ret (etc, used_space)
      else Ret (etc, used_space)
  | NICKNAME =>
      let '(etc, used_space) :=
        if fingerprint_column width used_space
        then (etc +++ ljust 40 (get_fingerprint_or "UNKNOWN") +++ "  ", used_space + 42)
        else (etc, used_space) in
      if (used_space + 28 <? width) && showColumn_destination env
      then Ret (etc +++ ljust 26 destination_address +++ "  ", used_space + 28)
      else Ret (etc, used_space)
  end.

Definition get_etc_content (width : Z) (listing_type : Listing) : result string :=
  if is_application my_type then
    if len display_label <? width
    then Ret (ljust_dyn width display_label)
    else Ret ""
  else
    p <- etc_columns width listing_type ;;
    Ret (ljust_dyn width (fst p)).

(** [_get_listing_content(width, listing_type)], the parts of its
    IP_ADDRESS branch first. *)
Definition local_port_label : string :=
  if include_port self then ":" +++ str_of_Z (local_port (connection self)) else "".

Definition my_external_address : string :=
  or_default (get_info_address env) (local_address (connection self)).

Definition address_differ : bool :=
  negb (String.eqb my_external_address (local_address (connection self))).

Definition is_expansion_type : bool := negb (is_application my_type).

Definition src_address : string :=
  if is_expansion_type then my_external_address +++ local_port_label
  else local_address (connection self) +++ local_port_label.

Definition internal_address : string :=
  local_address (connection self) +++ local_port_label.

(** src and dst when listing by address; SOCKS and CONTROL connections
    have them reversed. *)
Definition ip_src_dst (destination_address : string) : string * string :=
  match my_type with
  | SOCKS | CONTROL => (ljust 21 destination_address, ljust 26 src_address)
  | _ => (ljust 21 src_address, ljust 26 destination_address)
  end.

(** The guard of the expanded (internal) address. *)
Definition expanded_address_shown (width used_space : Z) : bool :=
  let is_expanded_address_visible := used_space + 28 <? width in
  let is_expanded_address_visible :=
    if is_expanded_address_visible && showColumn_fingerprint env
    then (width <? used_space + 42) || (used_space + 70 <? width)
    else is_expanded_address_visible in
  address_differ && is_expansion_type && is_expanded_address_visible
  && include_expanded_addresses self && showColumn_expandedIp env.

(** [listing_fields] is the body of [_get_listing_content] up to the
    swap for inbound connections: src, dst, etc and the space used.
    [base_space / 3] is the integer division of Python 2, which the
    module is written for. *)
Definition listing_fields (width : Z) (listing_type : Listing)
  : result (string * string * string * Z) :=
  destination_address <- get_destination_label 26 true ;;
  let used_space := len (LABEL_FORMAT "" "" "" "") + LABEL_MIN_PADDING in
  match listing_type with
  | IP_ADDRESS =>
      let '(src, dst) := ip_src_dst destination_address in
      let used_space := used_space + (len src + len dst) in
      let '(src, used_space) :=
        if expanded_address_shown width used_space
        then
          (match my_type with
           | INBOUND => ljust 21 src +++ "  -->  " +++ internal_address
           | _ => ljust 21 internal_address +++ "  -->  " +++ src
           end, used_space + 28)
        else (src, used_space) in
      etc <- get_etc_content (width - used_space) listing_type ;;
      Ret (src, dst, etc, used_space + len etc)
  | FINGERPRINT =>
      let src := "localhost" in
      let dst := ljust 40 (match my_type with
                           | CONTROL => "localhost"
                           | _ => get_fingerprint_or "UNKNOWN"
                           end) in
      let used_space := used_space + (len src + len dst) in
      etc <- get_etc_content (width - used_space) listing_type ;;
      Ret (src, dst, etc, used_space + len etc)
  | NICKNAME =>
      let src := or_default (get_conf_nickname env) "UNKNOWN" in
      let dst := match my_type with
                 | CONTROL => or_default (get_conf_nickname env) "UNKNOWN"
                 | _ => get_nickname "UNKNOWN"
                 end in
      let min_base_space := 50 in
      etc <- get_etc_content (width - used_space - min_base_space) listing_type ;;
      let used_space := used_space + len etc in
      let base_space := width - used_space in
      let used_space := width in
      p <- (if base_space <? len src + len dst then
              src <- crop src (base_space / 3) 4 ELLIPSE ;;
              dst <- crop dst (base_space - len src) 4 ELLIPSE ;;
              Ret (src, dst)
            else Ret (src, dst)) ;;
      let '(src, dst) := p in
      let dst := ljust_dyn (base_space - len src) dst in
      Ret (src, dst, etc, used_space)
  end.

Definition _get_listing_content (width : Z) (listing_type : Listing) : result string :=
  f <- listing_fields width listing_type ;;
  let '(src, dst, etc, used_space) := f in
  let '(src, dst) :=
    match my_type with
    | INBOUND => (dst, src)
    | _ => (src, dst)
    end in
  let padding := spaces (width - used_space + LABEL_MIN_PADDING) in
  Ret (LABEL_FORMAT src dst etc padding).

(** A styled text segment: the text and its curses attribute. *)
Definition Segment : Type := string * Z.

(** The body of [_get_listing_entry(width, listing_type)]: the list a
    cache miss builds. *)
Definition _get_listing_entry (width : Z) (listing_type : Listing)
  : result (list Segment) :=
  let entry_type := category_name my_type in
  let line_format := get_color env (CATEGORY_COLOR env my_type) in
  content <- _get_listing_content (width - 19) listing_type ;;
  Ret [(" ", line_format);
       (content, line_format);
       ("      ", line_format);
       (" (", line_format);
       (upper entry_type, Z.lor line_format (A_BOLD env));
       (")" +++ spaces (9 - len entry_type), line_format)].

End Line.

(* ------------------------------------------------------------------ *)
(** ** Lists assigned by index *)

Fixpoint replace_nth {A} (i : nat) (v : A) (l : list A) : list A :=
  match l, i with
  | [], _ => []
  | _ :: l', O => v :: l'
  | x :: l', S i' => x :: replace_nth i' v l'
  end.

(** [l[i] = v]; out of range raises. *)
Definition list_set {A} (l : list A) (i : nat) (v : A) : result (list A) :=
  if (i <? List.length l)%nat then Ret (replace_nth i v l) else Raise IndexError.

(** Sequencing a function that may raise over a list, left to right. *)
Fixpoint mapM {A B} (f : A -> result B) (l : list A) : result (list B) :=
  match l with
  | [] => Ret []
  | x :: l' => y <- f x ;; ys <- mapM f l' ;; Ret (y :: ys)
  end.

(* ------------------------------------------------------------------ *)
(** ** The memoised listing entry and the age splice

    [_get_listing_entry] is wrapped by [lru_cache]: the cache maps the
    call's arguments (the line object, the width, the listing type) to
    the list the call returned.  Lists are objects: the cache and the
    caller hold a reference to the same list, so the state keeps a heap
    of list objects and the cache stores references into it. *)

Definition Key : Type := nat * Z * Listing.

Definition key_eqb (a b : Key) : bool :=
  let '(i, w, m) := a in
  let '(i', w', m') := b in
  Nat.eqb i i' && (w =? w') && listing_eqb m m'.

Record State := {
  objects : nat -> list Segment;   (* the list behind each reference *)
  next : nat;                      (* first unused reference *)
  cache : list (Key * nat)         (* most recently used first *)
}.

Definition empty_state : State :=
  {| objects := fun _ => []; next := 0; cache := [] |}.

Fixpoint lru_find (k : Key) (c : list (Key * nat)) : option nat :=
  match c with
  | [] => None
  | (k', loc) :: c' => if key_eqb k k' then Some loc else lru_find k c'
  end.

Definition lru_remove (k : Key) (c : list (Key * nat)) : list (Key * nat) :=
  filter (fun e => negb (key_eqb k (fst e))) c.

Definition set_object (o : nat -> list Segment) (loc : nat) (l : list Segment)
  : nat -> list Segment :=
  fun loc' => if Nat.eqb loc' loc then l else o loc'.

Section Cached.

Variable env : Env.
Variable self : ConnectionLine.

(** The decorated [_get_listing_entry]: a hit returns the stored
    reference and marks it most recently used; a miss runs the body,
    stores the new list and drops the least recently used entries
    beyond [maxsize]; a raising call stores nothing. *)
Definition _get_listing_entry_cached (width : Z) (listing_type : Listing) (st : State)
  : result nat * State :=
  let key := (line_id self, width, listing_type) in
  match lru_find key (cache st) with
  | Some loc =>
      (Ret loc, {| objects := objects st; next := next st;
                   cache := (key, loc) :: lru_remove key (cache st) |})
  | None =>
      match _get_listing_entry env self width listing_type with
      | Ret draw_entry =>
          (Ret (next st),
           {| objects := set_object (objects st) (next st) draw_entry;
              next := S (next st);
              cache := firstn (maxsize env) ((key, next st) :: cache st) |})
      | Raise e => (Raise e, st)
      end
  end.

(** The age label of a call at [current_time]. *)
Definition age_label (current_time : Z) : string :=
  let time_prefix := if is_legacy (connection self) then "+" else " " in
  time_prefix +++ rjust 5 (time_label env (current_time - start_time (connection self))).

(** [get_listing_entry(width, current_time, listing_type)]: returns the
    reference of the list it wrote the age into. *)
Definition get_listing_entry (width current_time : Z) (listing_type : Listing) (st : State)
  : result nat * State :=
  let '(r, st) := _get_listing_entry_cached width listing_type st in
  match r with
  | Raise e => (Raise e, st)
  | Ret loc =>
      let my_listing := objects st loc in
      match nth_error my_listing 2 with
      | Some old =>
          (Ret loc,
           {| objects := set_object (objects st) loc
                           (replace_nth 2 (age_label current_time, snd old) my_listing);
              next := next st;
              cache := cache st |})
      | None => (Raise IndexError, st)
      end
  end.

(** The printable text of a row: its segments' texts, concatenated. *)
Definition row_text (row : list Segment) : string :=
  fold_right (fun seg acc => fst seg +++ acc) "" row.

End Cached.

(* ------------------------------------------------------------------ *)
(** ** The detail page *)

Section Details.

Variable env : Env.
Variable self : ConnectionLine.

(** The loop over the candidate relays of [_get_detail_content]; [i] is
    the loop index and [rest] the candidates from index [i] on. *)
Fixpoint match_lines (count i : Z) (rest : list (Z * string)) (lines : list string)
  : result (list string) :=
  match rest with
  | [] => Ret lines
  | (relay_port, relay_fingerprint) :: rest' =>
      let is_last_line := i =? 3 in
      let line_text :=
        str_of_Z (i + 1) +++ ". or port: " +++ ljust 5 (str_of_Z relay_port)
        +++ " fingerprint: " +++ relay_fingerprint in
      let remaining_relays := count - i in
      let line_text :=
        if is_last_line && (1 <? remaining_relays)
        then "... " +++ str_of_Z remaining_relays +++ " more"
        else line_text in
      lines <- list_set lines (Z.to_nat (3 + i)) line_text ;;
      if is_last_line then Ret lines else match_lines count (i + 1) rest' lines
  end.

(** The lines of [_get_detail_content(width)] before they are cropped. *)
Definition detail_lines (width : Z) : result (list string) :=
  let lines := repeat "" 7 in
  label <- get_destination_label env self (width - 11) false ;;
  lines <- list_set lines 0 ("address: " +++ label) ;;
  lines <- list_set lines 1
    ("locale: " +++ (if is_private (_entry self) then "??"
                     else get_locale env self "??")) ;;
  match get_fingerprint env self with
  | Some fingerprint =>
      line1 <- match nth_error lines 1 with
               | Some l => Ret l | None => Raise IndexError end ;;
      lines <- list_set lines 1 (ljust 13 line1 +++ "fingerprint: " +++ fingerprint) ;;
      lines <-
        match get_network_status env fingerprint with
        | Some router_status_entry =>
            let dir_port_label :=
              match rs_dir_port router_status_entry with
              | Some p => if p =? 0 then "" else "dirport: " +++ str_of_Z p
              | None => ""
              end in
            lines <- list_set lines 2
              ("nickname: " +++ ljust 25 (rs_nickname router_status_entry)
               +++ " orport: " +++ ljust 10 (str_of_Z (rs_or_port router_status_entry))
               +++ " " +++ dir_port_label) ;;
            lines <- list_set lines 3
              ("published: " +++ rs_published router_status_entry) ;;
            list_set lines 4 ("flags: " +++ join ", " (rs_flags router_status_entry))
        | None => Ret lines
        end ;;
      match get_server_descriptor env fingerprint with
      | Some server_descriptor =>
          let policy_label := or_default (sd_exit_policy server_descriptor) "unknown" in
          lines <- list_set lines 5 ("exit policy: " +++ policy_label) ;;
          line3 <- match nth_error lines 3 with
                   | Some l => Ret l | None => Raise IndexError end ;;
          lines <- list_set lines 3
            (ljust 35 line3 +++ " os: "
             +++ ljust 14 (sd_operating_system server_descriptor)
             +++ " version: " +++ sd_tor_version server_descriptor) ;;
          match truthy (sd_contact server_descriptor) with
          | Some contact => list_set lines 6 ("contact: " +++ contact)
          | None => Ret lines
          end
      | None => Ret lines
      end
  | None =>
      let all_matches :=
        get_all_relay_fingerprints env (remote_address (connection self)) in
      match all_matches with
      | _ :: _ =>
          lines <- list_set lines 2 "Multiple matches, possible fingerprints are:" ;;
          match_lines (Z.of_nat (List.length all_matches)) 0 all_matches lines
      | [] => list_set lines 2 "No consensus data found"
      end
  end.

(** [_get_detail_content(width)] *)
Definition _get_detail_content (width : Z) : result (list string) :=
  lines <- detail_lines width ;;
  mapM (fun line => crop line (width - 2) 4 ELLIPSE) lines.

(** The body of [get_details(width)]; its [lru_cache] hands the same
    list back on later calls. *)
Definition get_details (width : Z) : result (list (string * (Z * string))) :=
  let detail_format := (A_BOLD env, CATEGORY_COLOR env (get_type (_entry self))) in
  lines <- _get_detail_content width ;;
  Ret (map (fun line => (line, detail_format)) lines).

End Details.

(* ------------------------------------------------------------------ *)
(** ** Notions used by the statements *)

(** A skeleton with [text] written into its age slot, the attribute of
    the slot kept. *)
Definition splice (text : string) (skel : list Segment) : list Segment :=
  match nth_error skel 2 with
  | Some old => replace_nth 2 (text, snd old) skel
  | None => skel
  end.

(** The cache is in step with the collaborators: references are
    allocated, and what is stored for this line is the list its body
    builds, up to the text of the age slot. *)
Definition cache_ok (env : Env) (self : ConnectionLine) (st : State) : Prop :=
  (forall k loc, In (k, loc) (cache st) -> (loc < next st)%nat) /\
  (forall w m loc, lru_find (line_id self, w, m) (cache st) = Some loc ->
     exists skel text,
       _get_listing_entry env self w m = Ret skel /\
       objects st loc = splice text skel).

(** The row has room for the base fields of its listing type, and shows
    no expanded address that the space accounting of the row gets
    wrong. *)
Definition row_fits (env : Env) (self : ConnectionLine) (w : Z) (mode : Listing) : Prop :=
  match mode with
  | IP_ADDRESS =>
      forall d, get_destination_label env self 26 true = Ret d ->
        let used := 11 + (len (fst (ip_src_dst env self d)) + len (snd (ip_src_dst env self d))) in
        used <= w - 19 /\
        (expanded_address_shown env self (w - 19) used = true ->
         my_type self <> INBOUND /\ len (internal_address self) <= 21)
  | FINGERPRINT => 60 <= w - 19
  | NICKNAME => 61 <= w - 19
  end.

(** Whether the nickname column is drawn when listing by address: the
    guard that follows the fingerprint column. *)
Definition ip_nickname_column (env : Env) (width : Z) : bool :=
  let used_space := if fingerprint_column env width 0 then 42 else 0 in
  (used_space + 10 <? width) && showColumn_nickname env.



(** The same line for another remote address. *)
Definition with_remote_address (a : string) (self : ConnectionLine) : ConnectionLine :=
  {| line_id := line_id self;
     _entry := _entry self;
     connection := {| local_address := local_address (connection self);
                      local_port := local_port (connection self);
                      remote_address := a;
                      remote_port := remote_port (connection self);
                      start_time := start_time (connection self);
                      is_legacy := is_legacy (connection self) |};
     include_port := include_port self;
     include_expanded_addresses := include_expanded_addresses self |}.

(** The same line under another category. *)
Definition with_type (c : Category) (self : ConnectionLine) : ConnectionLine :=
  {| line_id := line_id self;
     _entry := {| get_type := c; is_private := is_private (_entry self) |};
     connection := connection self;
     include_port := include_port self;
     include_expanded_addresses := include_expanded_addresses self |}.

(* ------------------------------------------------------------------ *)
(** ** A relay and some of its connections, for the examples *)

Module Demo.

Definition fp40 : string := "ABCDEF0123456789ABCDEF0123456789ABCDEF01".

Definition env : Env := {|
  showExitPort := true;
  showColumn_fingerprint := true;
  showColumn_nickname := true;
  showColumn_destination := true;
  showColumn_expandedIp := true;
  get_info_address := Some "82.1.2.3";
  get_conf_nickname := Some "myrelay";
  get_info_ip_to_country := fun _ => Some "us";
  is_geoip_unavailable := false;
  get_network_status := fun _ => None;
  get_server_descriptor := fun _ => None;
  get_relay_fingerprint := fun a _ => if String.eqb a "5.6.7.8" then Some fp40 else None;
  get_relay_nickname := fun o => match o with Some _ => Some "caerSidi" | None => None end;
  get_all_relay_fingerprints := fun a =>
    if String.eqb a "9.9.9.9"
    then [(9001, "A1"); (9002, "B2"); (9003, "C3"); (9004, "D4"); (9005, "E5"); (9006, "F6")]
    else [];
  fetch := fun p => if p =? 9051 then Process "python" (Some 1234) else UnresolvedResult;
  port_usage := fun p => if p =? 6881 then Some "BitTorrent" else None;
  is_private_address := fun a => String.prefix "10." a;
  time_label := fun t => str_of_Z (t / 60) +++ ".0m";
  CATEGORY_COLOR := fun _ => "green";
  get_color := fun _ => 512;
  A_BOLD := 2097152;
  maxsize := 100
|}.

Definition line (c : Category) (private : bool) (address : string) (port : Z)
  : ConnectionLine := {|
  line_id := 1;
  _entry := {| get_type := c; is_private := private |};
  connection := {| local_address := "10.0.0.5"; local_port := 9001;
                   remote_address := address; remote_port := port;
                   start_time := 1000; is_legacy := false |};
  include_port := true;
  include_expanded_addresses := true
|}.

Definition outbound : ConnectionLine := line OUTBOUND false "5.6.7.8" 443.
Definition inbound : ConnectionLine := line INBOUND true "7.7.7.7" 50123.
Definition torrent : ConnectionLine := line EXIT false "1.2.3.4" 6881.
Definition control : ConnectionLine := line CONTROL false "127.0.0.1" 9051.

(** An inbound connection on a line that leaves the internal address out. *)
Definition compact_inbound : ConnectionLine := {|
  line_id := 2;
  _entry := {| get_type := INBOUND; is_private := false |};
  connection := connection outbound;
  include_port := true;
  include_expanded_addresses := false
|}.

End Demo.

(* ------------------------------------------------------------------ *)
(** ** [nyx.join] and the collaborators of a private entry *)

Module nyx.

(** The loop of [join(entries, joiner, size)] for a given size:
    [result] is the text joined so far. *)
Fixpoint join_loop (joiner : string) (size : Z) (result : string)
    (entries : list string) : string :=
  match entries with
  | [] => result
  | entry :: entries' =>
      let new_result :=
        match result with
        | EmptyString => entry
        | _ => Py.join joiner [result; entry]
        end in
      if size <? len new_result then result
      else join_loop joiner size new_result entries'
  end.

(** [join(entries, joiner, size)]; [None] is the size left out. *)
Definition join (entries : list string) (joiner : string) (size : option Z) : string :=
  match size with
  | None => Py.join joiner entries
  | Some size => join_loop joiner size "" entries
  end.

End nyx.

(** The same collaborators with another answer to the locale lookup. *)
Definition with_ip_to_country (f : string -> option string) (env : Env) : Env :=
  {| showExitPort := showExitPort env;
     showColumn_fingerprint := showColumn_fingerprint env;
     showColumn_nickname := showColumn_nickname env;
     showColumn_destination := showColumn_destination env;
     showColumn_expandedIp := showColumn_expandedIp env;
     get_info_address := get_info_address env;
     get_conf_nickname := get_conf_nickname env;
     get_info_ip_to_country := f;
     is_geoip_unavailable := is_geoip_unavailable env;
     get_network_status := get_network_status env;
     get_server_descriptor := get_server_descriptor env;
     get_relay_fingerprint := get_relay_fingerprint env;
     get_relay_nickname := get_relay_nickname env;
     get_all_relay_fingerprints := get_all_relay_fingerprints env;
     fetch := fetch env;
     port_usage := port_usage env;
     is_private_address := is_private_address env;
     time_label := time_label env;
     CATEGORY_COLOR := CATEGORY_COLOR env;
     get_color := get_color env;
     A_BOLD := A_BOLD env;
     maxsize := maxsize env |}.

(** The columns that follow the place of the fingerprint column when
    listing by address (the nickname) or by nickname (the destination):
    their text and the space they take, [used_space] being the space
    taken before them. *)
Definition columns_after_fingerprint (env : Env) (self : ConnectionLine)
    (width used_space : Z) (listing_type : Listing) : result (string * Z) :=
  destination_address <- get_destination_label env self 26 true ;;
  match listing_type with
  | IP_ADDRESS =>
      if (used_space + 10 <? width) && showColumn_nickname env then
        let nickname_space := width - used_space in
        nickname_label <- crop (get_nickname env self "UNKNOWN") nickname_space 0 ELLIPSE ;;
        Ret (ljust_dyn nickname_space nickname_label +++ "  ", nickname_space + 2)
      else Ret ("", 0)
  | NICKNAME =>
      if (used_space + 28 <? width) && showColumn_destination env
      then Ret (ljust 26 destination_address +++ "  ", 28)
      else Ret ("", 0)
  | FINGERPRINT => Ret ("", 0)
  end.

(* ================================================================== *)
(** * Properties *)

(* ------------------------------------------------------------------ *)
(** ** Lengths of the string primitives *)

Lemma length_append (s t : string) :
  String.length (s +++ t) = (String.length s + String.length t)%nat.
Proof. induction s as [|c s IH]; simpl; [reflexivity | now rewrite IH]. Qed.

Lemma append_assoc (s t u : string) : (s +++ t) +++ u = s +++ t +++ u.
Proof. induction s as [|c s IH]; cbn; [reflexivity | now rewrite IH]. Qed.

Lemma append_nil_r (s : string) : s +++ "" = s.
Proof. induction s as [|c s IH]; cbn; [reflexivity | now rewrite IH]. Qed.

Lemma len_app (s t : string) : len (s +++ t) = len s + len t.
Proof. unfold len. rewrite length_append. lia. Qed.

Lemma len_nonneg (s : string) : 0 <= len s.
Proof. unfold len. lia. Qed.

Lemma length_string_of_list (l : list ascii) :
  String.length (string_of_list_ascii l) = List.length l.
Proof. induction l as [|c l IH]; simpl; [reflexivity | now rewrite IH]. Qed.

Lemma length_list_of_string (s : string) :
  List.length (list_ascii_of_string s) = String.length s.
Proof. induction s as [|c s IH]; simpl; [reflexivity | now rewrite IH]. Qed.

Lemma len_spaces (n : Z) : len (spaces n) = Z.max 0 n.
Proof.
  unfold len, spaces. rewrite length_string_of_list, repeat_length. lia.
Qed.

Lemma len_ljust (w : Z) (s : string) : len (ljust w s) = Z.max w (len s).
Proof. unfold ljust. rewrite len_app, len_spaces. lia. Qed.

Lemma len_rjust (w : Z) (s : string) : len (rjust w s) = Z.max w (len s).
Proof. unfold rjust. rewrite len_app, len_spaces. lia. Qed.

Lemma len_ljust_dyn (w : Z) (s : string) : len (ljust_dyn w s) = Z.max (Z.abs w) (len s).
Proof. unfold ljust_dyn. apply len_ljust. Qed.

Lemma length_substring_0 (n : nat) (s : string) :
  String.length (substring 0 n s) = Nat.min n (String.length s).
Proof.
  revert n. induction s as [|c s IH]; intros [|n]; simpl; try reflexivity.
  now rewrite IH.
Qed.

Lemma substring_0_all (n : nat) (s : string) :
  (String.length s <= n)%nat -> substring 0 n s = s.
Proof.
  revert n. induction s as [|c s IH]; intros [|n] H; simpl in *; try reflexivity; try lia.
  f_equal. apply IH. lia.
Qed.

Lemma len_slice_to_le (s : string) (n : Z) : len (slice_to s n) <= len s.
Proof.
  unfold slice_to, len. destruct (0 <=? n); rewrite length_substring_0; lia.
Qed.

Lemma len_slice_to (s : string) (n : Z) :
  0 <= n -> len (slice_to s n) = Z.min n (len s).
Proof.
  intros H. unfold slice_to, len. destruct (Z.leb_spec 0 n); [|lia].
  rewrite length_substring_0. lia.
Qed.

Lemma len_slice_to_neg (s : string) (n : Z) :
  n < 0 -> len (slice_to s n) = Z.max 0 (len s + n).
Proof.
  intros H. unfold slice_to. destruct (Z.leb_spec 0 n); [lia|].
  unfold len. rewrite length_substring_0. lia.
Qed.

Lemma slice_to_fits (s : string) (n : Z) : len s <= n -> slice_to s n = s.
Proof.
  intros H. pose proof (len_nonneg s). unfold slice_to, len in *.
  destruct (Z.leb_spec 0 n); [|lia]. apply substring_0_all. lia.
Qed.

Lemma length_lstrip_list (l : list ascii) :
  (List.length (lstrip_list l) <= List.length l)%nat.
Proof.
  induction l as [|c l IH]; simpl; [lia|]. destruct (is_space c); simpl; lia.
Qed.

Lemma len_rstrip_le (s : string) : len (rstrip s) <= len s.
Proof.
  unfold rstrip, len. rewrite length_string_of_list, length_rev.
  pose proof (length_lstrip_list (rev (list_ascii_of_string s))) as H.
  rewrite length_rev, length_list_of_string in H. lia.
Qed.

Lemma len_upper (s : string) : len (upper s) = len s.
Proof.
  unfold len. f_equal. induction s as [|c s IH]; simpl; [reflexivity | now rewrite IH].
Qed.

Lemma rfind_space_list_bound (l : list ascii) (n : nat) (i j : Z) :
  rfind_space_list l n i = Some j -> i <= j < i + Z.of_nat n.
Proof.
  revert n i. induction l as [|c l IH]; intros [|n] i H; simpl in H; try discriminate.
  destruct (rfind_space_list l n (i + 1)) eqn:E.
  - inversion H; subst. apply IH in E. lia.
  - destruct (Ascii.eqb c " "); inversion H; subst. lia.
Qed.

Lemma rfind_space_bound (s : string) (stop j : Z) :
  rfind_space s stop = Some j -> 0 <= j /\ (0 <= stop -> j < stop).
Proof.
  unfold rfind_space. intros H. apply rfind_space_list_bound in H.
  split; [lia|]. intros Hs. destruct (Z.ltb_spec stop 0); lia.
Qed.

Lemma rfind_space_empty_range (s : string) : rfind_space s 0 = None.
Proof.
  unfold rfind_space. simpl. destruct (list_ascii_of_string s); reflexivity.
Qed.

Lemma last_char_some (s : string) (c : ascii) : last_char s = Some c -> 1 <= len s.
Proof.
  unfold last_char, len. rewrite <- length_list_of_string.
  rewrite <- (length_rev (list_ascii_of_string s)).
  destruct (rev (list_ascii_of_string s)); [discriminate | simpl; lia].
Qed.

(* ------------------------------------------------------------------ *)
(** ** [crop] *)

Lemma crop_fits (msg : string) (size mwl : Z) (e : Ending) :
  len msg <= size -> crop msg size mwl e = Ret msg.
Proof.
  intros H. unfold crop. destruct (Z.leb_spec (len msg) size); [reflexivity | lia].
Qed.

Lemma len_strip_punct_le (s : string) : len (strip_punct s) <= len s.
Proof.
  unfold strip_punct. destruct (last_char s); [|lia].
  destruct (_ || _); [apply len_slice_to_le | lia].
Qed.

Lemma len_finish_le (e : Ending) (s : string) :
  len (finish e s) <= len s + match e with ELLIPSE => 3 | HYPHEN => 0 end.
Proof.
  unfold finish. pose proof (len_strip_punct_le s).
  destruct e; [|lia].
  rewrite len_app. pose proof (len_rstrip_le (strip_punct s)).
  change (len "...") with 3. lia.
Qed.

(** A cropped message fits the size it was cropped to: whenever the size
    leaves room for the ending. *)
Lemma crop_len (msg : string) (size mwl : Z) (e : Ending) (r : string) :
  match e with ELLIPSE => 2 | HYPHEN => 0 end <= size ->
  crop msg size mwl e = Ret r -> len r <= size.
Proof.
  intros Hsize. unfold crop.
  destruct (Z.leb_spec (len msg) size) as [Hfit|Hlong].
  { intros H; inversion H; subst; assumption. }
  destruct (Z.ltb_spec size 0) as [|Hs0]; [discriminate|].
  destruct (Z.ltb_spec mwl 0) as [|Hm0]; [discriminate|].
  set (size' := match e with ELLIPSE => size - 3 | HYPHEN => size end).
  set (mwl' := match e with
               | HYPHEN => if mwl =? 0 then 0 else mwl + 1
               | ELLIPSE => mwl end).
  assert (Hmwl' : 0 <= mwl').
  { subst mwl'. destruct e; [lia|]. destruct (mwl =? 0); lia. }
  assert (Hcut : forall r',
    0 <= size' ->
    match e with
    | HYPHEN =>
        match last_char (slice_to msg size') with
        | Some _ => Ret (finish e (rstrip (slice_to (slice_to msg size') (-1)) +++ "-"))
        | None => Raise IndexError
        end
    | ELLIPSE => Ret (finish e (slice_to msg size'))
    end = Ret r' -> len r' <= size).
  { intros r' Hs' H. subst size'. destruct e; cbn beta iota in Hs'.
    - injection H as <-.
      pose proof (len_finish_le ELLIPSE (slice_to msg (size - 3))) as Hf.
      rewrite len_slice_to in Hf by lia.
      cbv beta iota zeta delta [finish] in Hf. lia.
    - destruct (last_char (slice_to msg size)) eqn:Hlast; [|discriminate].
      apply last_char_some in Hlast. rewrite len_slice_to in Hlast by lia.
      injection H as <-.
      pose proof (len_finish_le HYPHEN (rstrip (slice_to (slice_to msg size) (-1)) +++ "-")) as Hf.
      rewrite len_app in Hf. change (len "-") with 1 in Hf.
      pose proof (len_rstrip_le (slice_to (slice_to msg size) (-1))) as Hr.
      rewrite len_slice_to_neg in Hr by lia.
      rewrite len_slice_to in Hr by lia.
      cbv beta iota zeta delta [finish] in Hf. lia. }
  destruct (rfind_space msg (size' + 1)) as [lw|] eqn:Hfind.
  - apply rfind_space_bound in Hfind. destruct Hfind as [Hlw0 Hlw].
    set (lw' := len (rstrip (slice_to msg lw))).
    assert (Hlw' : 0 <= lw' <= lw).
    { subst lw'. split; [apply len_nonneg|].
      pose proof (len_rstrip_le (slice_to msg lw)).
      rewrite len_slice_to in H by lia. lia. }
    destruct (Z.leb_spec mwl' (size' - lw' - 1)) as [Hinc|Hninc].
    + apply Hcut. lia.
    + intros H; injection H as <-.
      pose proof (len_finish_le e (slice_to msg lw')) as Hf.
      rewrite len_slice_to in Hf by lia.
      cbv beta iota zeta delta [finish] in Hf.
      destruct (Z.ltb_spec (size' + 1) 0) as [Hneg|Hpos].
      * (* the search range counted from the end: only for sizes 0 and 1 *)
        subst size'. destruct e; cbn beta iota in *; lia.
      * specialize (Hlw ltac:(lia)). subst size'.
        destruct e; cbv beta iota zeta delta [finish] in *; lia.
  - destruct (Z.ltb_spec size' mwl') as [|Hge].
    + intros Hr; injection Hr as <-. change (len "") with 0. lia.
    + apply Hcut. lia.
Qed.

Lemma last_char_exists (s : string) : 1 <= len s -> exists c, last_char s = Some c.
Proof.
  unfold last_char, len. rewrite <- length_list_of_string.
  rewrite <- (length_rev (list_ascii_of_string s)).
  destruct (rev (list_ascii_of_string s)) as [|c l]; simpl; [lia | eauto].
Qed.

(** For a size that is not negative [crop] returns. *)
Lemma crop_returns (msg : string) (size mwl : Z) (e : Ending) :
  0 <= size -> 0 <= mwl -> (e = HYPHEN -> 0 < mwl) ->
  exists r, crop msg size mwl e = Ret r.
Proof.
  intros Hsize Hmwl Hhyp. unfold crop.
  destruct (Z.leb_spec (len msg) size) as [|Hlong]; [eauto|].
  destruct (Z.ltb_spec size 0); [lia|].
  destruct (Z.ltb_spec mwl 0); [lia|].
  destruct e.
  - destruct (rfind_space msg (size - 3 + 1)).
    + destruct (_ <=? _); eauto.
    + destruct (_ <? _); eauto.
  - specialize (Hhyp eq_refl).
    destruct (Z.eqb_spec mwl 0); [lia|].
    assert (Hcut : 2 <= size ->
      exists r, match last_char (slice_to msg size) with
                | Some _ => Ret (finish HYPHEN (rstrip (slice_to (slice_to msg size) (-1)) +++ "-"))
                | None => Raise IndexError
                end = Ret r).
    { intros H2. destruct (last_char_exists (slice_to msg size)) as [c Hc].
      - rewrite len_slice_to by lia. lia.
      - rewrite Hc. eauto. }
    destruct (rfind_space msg (size + 1)) as [lw|].
    + pose proof (len_nonneg (rstrip (slice_to msg lw))).
      destruct (Z.leb_spec (mwl + 1) (size - len (rstrip (slice_to msg lw)) - 1));
        [apply Hcut; lia | eauto].
    + destruct (Z.ltb_spec size (mwl + 1)); [eauto | apply Hcut; lia].
Qed.

(* ------------------------------------------------------------------ *)
(** ** The destination label *)

Section LineFacts.

Variable env : Env.
Variable self : ConnectionLine.

Lemma get_destination_label_returns (max_length : Z) (include_locale : bool) :
  exists d, get_destination_label env self max_length include_locale = Ret d.
Proof.
  unfold get_destination_label.
  set (d0 := address_label self +++ port_label env self).
  destruct (Z.leb_spec (len d0 + 5) max_length) as [Hroom|]; [|simpl; eauto].
  destruct (category_eqb (my_type self) EXIT && dest_include_port env self).
  - destruct (truthy (port_usage env (remote_port (connection self)))) as [purpose|];
      [|simpl; eauto].
    match goal with |- context [crop ?p ?n 4 HYPHEN] =>
      destruct (crop_returns p n 4 HYPHEN) as [r Hr]; [lia | lia | lia |]; rewrite Hr
    end.
    simpl. eauto.
  - destruct (negb (is_private_address env (remote_address (connection self))));
      [|simpl; eauto].
    destruct (include_locale && negb (is_geoip_unavailable env)); simpl; eauto.
Qed.

Lemma len_get_destination_label (max_length : Z) (include_locale : bool) (d : string) :
  0 <= max_length ->
  get_destination_label env self max_length include_locale = Ret d ->
  len d <= max_length.
Proof.
  intros Hn. unfold get_destination_label.
  match goal with |- bind ?m _ = _ -> _ => destruct m as [d'|]; simpl; [|discriminate] end.
  intros H; injection H as <-. rewrite len_slice_to by assumption. lia.
Qed.

End LineFacts.

(* ------------------------------------------------------------------ *)
(** ** The optional columns *)

Section EtcFacts.

Variable env : Env.
Variable self : ConnectionLine.

Hypothesis fingerprint_size : len (get_fingerprint_or env self "UNKNOWN") <= 40.

Lemma len_fingerprint_field :
  len (ljust 40 (get_fingerprint_or env self "UNKNOWN") +++ "  ") = 42.
Proof. rewrite len_app, len_ljust. change (len "  ") with 2. lia. Qed.

Lemma len_destination_field (d : string) :
  len d <= 26 -> len (ljust 26 d +++ "  ") = 28.
Proof. intros H. rewrite len_app, len_ljust. change (len "  ") with 2. lia. Qed.

(** The nickname field: the cropped nickname, padded, and two spaces. *)
Lemma nickname_field (space : Z) :
  2 <= space ->
  exists label,
    crop (get_nickname env self "UNKNOWN") space 0 ELLIPSE = Ret label /\
    len (ljust_dyn space label +++ "  ") = space + 2.
Proof.
  intros H.
  destruct (crop_returns (get_nickname env self "UNKNOWN") space 0 ELLIPSE) as [label Hl];
    try lia; [discriminate|].
  exists label. split; [assumption|].
  apply crop_len in Hl; [|lia].
  rewrite len_app, len_ljust_dyn. change (len "  ") with 2. lia.
Qed.

(** The columns account for their own length, and go beyond the width
    only by the two spaces after the nickname of an address listing. *)
Lemma etc_columns_spec (width : Z) (mode : Listing) :
  exists etc used,
    etc_columns env self width mode = Ret (etc, used) /\
    len etc = used /\
    0 <= used /\
    (width < 0 -> used = 0) /\
    (0 <= width ->
     used = match mode with
            | IP_ADDRESS => if ip_nickname_column env width then width + 2 else used
            | _ => used
            end /\
     (match mode with
      | IP_ADDRESS => ip_nickname_column env width = false
      | _ => True
      end -> used <= width)).
Proof.
  unfold etc_columns.
  destruct (get_destination_label_returns env self 26 true) as [d Hd].
  rewrite Hd. cbn [bind].
  pose proof (len_get_destination_label env self 26 true d ltac:(lia) Hd) as Hd26.
  pose proof len_fingerprint_field as Hfp.
  pose proof (len_destination_field d Hd26) as Hdest.
  destruct mode.
  - (* IP_ADDRESS *)
    unfold ip_nickname_column.
    destruct (fingerprint_column env width 0) eqn:Hfc.
    + unfold fingerprint_column in Hfc. apply andb_prop in Hfc. destruct Hfc as [Hw _].
      apply Z.ltb_lt in Hw.
      replace (0 + 42) with 42 by lia.
      destruct ((42 + 10 <? width) && showColumn_nickname env) eqn:Hn.
      * apply andb_prop in Hn. destruct Hn as [Hw' _]. apply Z.ltb_lt in Hw'.
        destruct (nickname_field (width - 42) ltac:(lia)) as [label [Hl Hlen]].
        rewrite Hl. cbn [bind]. do 2 eexists. split; [reflexivity|].
        change ("" +++ ?x) with x.
        rewrite !len_app in *. repeat split; try lia.
      * do 2 eexists. split; [reflexivity|].
        change ("" +++ ?x) with x. repeat split; try lia.
    + destruct ((0 + 10 <? width) && showColumn_nickname env) eqn:Hn.
      * apply andb_prop in Hn. destruct Hn as [Hw' _]. apply Z.ltb_lt in Hw'.
        destruct (nickname_field (width - 0) ltac:(lia)) as [label [Hl Hlen]].
        rewrite Hl. cbn [bind]. do 2 eexists. split; [reflexivity|].
        change ("" +++ ?x) with x. repeat split; try lia.
      * do 2 eexists. split; [reflexivity|].
        change (len "") with 0. repeat split; try lia.
  - (* FINGERPRINT *)
    destruct (Z.ltb_spec (0 + 17) width) as [Hw|Hw].
    + destruct ((0 + 45 <? width) && showColumn_destination env) eqn:Hloc.
      * apply andb_prop in Hloc. destruct Hloc as [Hw' _]. apply Z.ltb_lt in Hw'.
        destruct (showColumn_nickname env).
        -- destruct (nickname_field (width - 0 - 2 - 28) ltac:(lia)) as [label [Hl Hlen]].
           rewrite Hl. cbn [bind]. do 2 eexists. split; [reflexivity|].
           change ("" +++ ?x) with x. rewrite !len_app in *. repeat split; try lia.
        -- cbn [bind]. do 2 eexists. split; [reflexivity|].
           change ("" +++ ?x) with x. repeat split; try lia.
      * destruct (showColumn_nickname env).
        -- destruct (nickname_field (width - 0 - 2) ltac:(lia)) as [label [Hl Hlen]].
           rewrite Hl. cbn [bind]. do 2 eexists. split; [reflexivity|].
           change ("" +++ ?x) with x. repeat split; try lia.
        -- cbn [bind]. do 2 eexists. split; [reflexivity|].
           change (len "") with 0. repeat split; try lia.
    + do 2 eexists. split; [reflexivity|].
      change (len "") with 0. repeat split; try lia.
  - (* NICKNAME *)
    destruct (fingerprint_column env width 0) eqn:Hfc.
    + unfold fingerprint_column in Hfc. apply andb_prop in Hfc. destruct Hfc as [Hw _].
      apply Z.ltb_lt in Hw.
      replace (0 + 42) with 42 by lia.
      destruct ((42 + 28 <? width) && showColumn_destination env) eqn:Hn.
      * apply andb_prop in Hn. destruct Hn as [Hw' _]. apply Z.ltb_lt in Hw'.
        do 2 eexists. split; [reflexivity|].
        change ("" +++ ?x) with x. rewrite !len_app in *. repeat split; try lia.
      * do 2 eexists. split; [reflexivity|].
        change ("" +++ ?x) with x. repeat split; try lia.
    + destruct ((0 + 28 <? width) && showColumn_destination env) eqn:Hn.
      * apply andb_prop in Hn. destruct Hn as [Hw' _]. apply Z.ltb_lt in Hw'.
        do 2 eexists. split; [reflexivity|].
        change ("" +++ ?x) with x. repeat split; try lia.
      * do 2 eexists. split; [reflexivity|].
        change (len "") with 0. repeat split; try lia.
Qed.

End EtcFacts.

Section EtcContentFacts.

Variable env : Env.
Variable self : ConnectionLine.

Hypothesis fingerprint_size : len (get_fingerprint_or env self "UNKNOWN") <= 40.

(** The field of an application: the padded label when it is shorter
    than the width, nothing otherwise. *)
Lemma get_etc_content_application (width : Z) (mode : Listing) :
  is_application (my_type self) = true ->
  get_etc_content env self width mode =
    Ret (if len (display_label env self) <? width
         then display_label env self +++ spaces (width - len (display_label env self))
         else "").
Proof.
  intros Happ. unfold get_etc_content. rewrite Happ.
  destruct (Z.ltb_spec (len (display_label env self)) width) as [Hlt|]; [|reflexivity].
  pose proof (len_nonneg (display_label env self)).
  unfold ljust_dyn, ljust. rewrite Z.abs_eq by lia. reflexivity.
Qed.

(** The columns of a relay: as wide as asked for, but for the nickname
    of an address listing, which adds two. *)
Lemma get_etc_content_relay (width : Z) (mode : Listing) :
  is_application (my_type self) = false ->
  exists s,
    get_etc_content env self width mode = Ret s /\
    len s = if width <? 0 then - width
            else match mode with
                 | IP_ADDRESS => if ip_nickname_column env width then width + 2 else width
                 | _ => width
                 end.
Proof.
  intros Happ. unfold get_etc_content. rewrite Happ.
  destruct (etc_columns_spec env self fingerprint_size width mode)
    as (etc & used & Hcols & Hlen & Hused0 & Hneg & Hpos).
  rewrite Hcols. cbn [bind fst]. eexists. split; [reflexivity|].
  rewrite len_ljust_dyn, Hlen.
  destruct (Z.ltb_spec width 0) as [Hw|Hw].
  - rewrite (Hneg Hw). lia.
  - destruct (Hpos Hw) as [Hval Hle]. destruct mode; try (specialize (Hle I); lia).
    destruct (ip_nickname_column env width); [lia | specialize (Hle eq_refl); lia].
Qed.

(** In a width that is not negative the field never takes more than the
    width and the two spaces of the nickname column. *)
Lemma get_etc_content_bound (width : Z) (mode : Listing) :
  0 <= width ->
  exists s,
    get_etc_content env self width mode = Ret s /\
    len s <= match mode with IP_ADDRESS => width + 2 | _ => width end.
Proof.
  intros Hw. destruct (is_application (my_type self)) eqn:Happ.
  - rewrite get_etc_content_application by assumption.
    eexists. split; [reflexivity|].
    pose proof (len_nonneg (display_label env self)).
    destruct (Z.ltb_spec (len (display_label env self)) width).
    + rewrite len_app, len_spaces. destruct mode; lia.
    + change (len "") with 0. destruct mode; lia.
  - destruct (get_etc_content_relay width mode Happ) as (s & Hs & Hlen).
    exists s. split; [assumption|].
    destruct (Z.ltb_spec width 0); [lia|].
    destruct mode; try lia. destruct (ip_nickname_column env width); lia.
Qed.

End EtcContentFacts.

(* ------------------------------------------------------------------ *)
(** ** The listing content *)

Lemma len_LABEL_FORMAT (src dst etc padding : string) :
  len (LABEL_FORMAT src dst etc padding) = len src + len dst + len etc + len padding + 9.
Proof.
  unfold LABEL_FORMAT. rewrite !len_app.
  change (len "  -->  ") with 7. change (len "  ") with 2. lia.
Qed.

Section ContentFacts.

Variable env : Env.
Variable self : ConnectionLine.

Hypothesis fingerprint_size : len (get_fingerprint_or env self "UNKNOWN") <= 40.

(** The fields of a row that fits add up: the space used, with the
    padding that remains, is the width. *)
Lemma listing_fields_spec (w : Z) (mode : Listing) :
  row_fits env self w mode ->
  exists src dst etc used,
    listing_fields env self (w - 19) mode = Ret (src, dst, etc, used) /\
    len src + len dst + len etc + Z.max 0 (w - 19 - used + 2) + 9 = w - 19.
Proof.
  intros Hfit. unfold listing_fields.
  destruct (get_destination_label_returns env self 26 true) as [d Hd].
  rewrite Hd. cbn [bind].
  change (len (LABEL_FORMAT "" "" "" "") + LABEL_MIN_PADDING) with 11.
  destruct mode.
  - (* IP_ADDRESS *)
    cbn [row_fits] in Hfit. specialize (Hfit d Hd). cbv zeta in Hfit.
    destruct (ip_src_dst env self d) as [src dst] eqn:Hsd. cbn [fst snd] in Hfit.
    destruct Hfit as [Hroom Hexp].
    destruct (expanded_address_shown env self (w - 19) (11 + (len src + len dst))) eqn:Hshown.
    + destruct (Hexp eq_refl) as [Hin Hint].
      assert (Hw : 11 + (len src + len dst) + 28 < w - 19).
      { unfold expanded_address_shown in Hshown.
        destruct (Z.ltb_spec (11 + (len src + len dst) + 28) (w - 19)); [assumption|].
        rewrite !andb_false_r in Hshown. cbn in Hshown.
        rewrite ?andb_false_r in Hshown. discriminate. }
      match goal with |- context [get_etc_content env self ?n IP_ADDRESS] =>
        destruct (get_etc_content_bound env self fingerprint_size n IP_ADDRESS)
          as (etc & Hetc & Hlen); [lia|]; rewrite Hetc
      end.
      cbn [bind]. do 4 eexists. split; [reflexivity|].
      destruct (my_type self); try contradiction;
        rewrite !len_app, len_ljust; change (len "  -->  ") with 7; lia.
    + match goal with |- context [get_etc_content env self ?n IP_ADDRESS] =>
        destruct (get_etc_content_bound env self fingerprint_size n IP_ADDRESS)
          as (etc & Hetc & Hlen); [lia|]; rewrite Hetc
      end.
      cbn [bind]. do 4 eexists. split; [reflexivity|]. lia.
  - (* FINGERPRINT *)
    cbn [row_fits] in Hfit.
    set (dst := ljust 40 match my_type self with
                         | CONTROL => "localhost"
                         | _ => get_fingerprint_or env self "UNKNOWN"
                         end).
    assert (Hdst : len dst = 40).
    { subst dst. rewrite len_ljust.
      destruct (my_type self); try lia; change (len "localhost") with 9; lia. }
    change (len "localhost") with 9. rewrite Hdst.
    match goal with |- context [get_etc_content env self ?n FINGERPRINT] =>
      destruct (get_etc_content_bound env self fingerprint_size n FINGERPRINT)
        as (etc & Hetc & Hlen); [lia|]; rewrite Hetc
    end.
    cbn [bind]. do 4 eexists. split; [reflexivity|].
    change (len "localhost") with 9. lia.
  - (* NICKNAME *)
    cbn [row_fits] in Hfit.
    match goal with |- context [get_etc_content env self ?n NICKNAME] =>
      destruct (get_etc_content_bound env self fingerprint_size n NICKNAME)
        as (etc & Hetc & Hlen); [lia|]; rewrite Hetc
    end.
    cbn [bind].
    set (src := or_default (get_conf_nickname env) "UNKNOWN").
    set (dst := match my_type self with
                | CONTROL => src
                | _ => get_nickname env self "UNKNOWN"
                end).
    set (base_space := w - 19 - (11 + len etc)).
    assert (Hbase : 50 <= base_space) by (subst base_space; lia).
    pose proof (len_nonneg src). pose proof (len_nonneg dst). pose proof (len_nonneg etc).
    destruct (Z.ltb_spec base_space (len src + len dst)) as [Hcrop|Hok].
    + assert (Hthird : 16 <= base_space / 3 <= base_space - 2).
      { split; [apply Z.div_le_lower_bound; lia|].
        assert (base_space / 3 <= base_space / 1) by (apply Z.div_le_compat_l; lia).
        rewrite Z.div_1_r in *.
        assert (base_space / 3 * 3 <= base_space).
        { rewrite Z.mul_comm. apply Z.mul_div_le. lia. }
        lia. }
      destruct (crop_returns src (base_space / 3) 4 ELLIPSE) as [src' Hs]; try lia.
      rewrite Hs. cbn [bind].
      assert (Hls : len src' <= base_space / 3) by (apply crop_len in Hs; cbn; lia).
      pose proof (len_nonneg src').
      destruct (crop_returns dst (base_space - len src') 4 ELLIPSE) as [dst' Hdc];
        try lia.
      rewrite Hdc. cbn [bind].
      assert (Hld : len dst' <= base_space - len src') by (apply crop_len in Hdc; cbn; lia).
      do 4 eexists. split; [reflexivity|].
      rewrite len_ljust_dyn. lia.
    + cbn [bind]. do 4 eexists. split; [reflexivity|].
      rewrite len_ljust_dyn. lia.
Qed.

(** [_get_listing_content] of a row that fits is as long as its width. *)
Lemma len_listing_content (w : Z) (mode : Listing) :
  row_fits env self w mode ->
  exists content,
    _get_listing_content env self (w - 19) mode = Ret content /\
    len content = w - 19.
Proof.
  intros Hfit. unfold _get_listing_content.
  destruct (listing_fields_spec w mode Hfit) as (src & dst & etc & used & Hf & Hlen).
  rewrite Hf. cbn [bind]. unfold LABEL_MIN_PADDING.
  destruct (my_type self); eexists; (split; [reflexivity|]);
    rewrite len_LABEL_FORMAT, len_spaces; lia.
Qed.

End ContentFacts.

(* ------------------------------------------------------------------ *)
(** ** Lists assigned by index, the cache *)

Lemma length_replace_nth {A} (i : nat) (v : A) (l : list A) :
  List.length (replace_nth i v l) = List.length l.
Proof.
  revert i. induction l as [|x l IH]; intros [|i]; simpl; try reflexivity.
  now rewrite IH.
Qed.

Lemma nth_error_replace_nth_eq {A} (i : nat) (v : A) (l : list A) :
  (i < List.length l)%nat -> nth_error (replace_nth i v l) i = Some v.
Proof.
  revert i. induction l as [|x l IH]; intros [|i] H; simpl in *; try lia; try reflexivity.
  apply IH. lia.
Qed.

Lemma nth_error_replace_nth_neq {A} (i j : nat) (v : A) (l : list A) :
  i <> j -> nth_error (replace_nth i v l) j = nth_error l j.
Proof.
  revert i j. induction l as [|x l IH]; intros [|i] [|j] H; simpl; try reflexivity.
  - contradiction.
  - apply IH. lia.
Qed.

Lemma replace_nth_twice {A} (i : nat) (a b : A) (l : list A) :
  replace_nth i a (replace_nth i b l) = replace_nth i a l.
Proof.
  revert i. induction l as [|x l IH]; intros [|i]; simpl; try reflexivity.
  now rewrite IH.
Qed.

Lemma list_set_returns {A} (l : list A) (i : nat) (v : A) :
  (i < List.length l)%nat -> list_set l i v = Ret (replace_nth i v l).
Proof.
  intros H. unfold list_set. destruct (Nat.ltb_spec i (List.length l)); [reflexivity | lia].
Qed.

Lemma splice_splice (a b : string) (skel : list Segment) (old : Segment) :
  nth_error (splice b skel) 2 = Some old ->
  replace_nth 2 (a, snd old) (splice b skel) = splice a skel.
Proof.
  unfold splice. destruct (nth_error skel 2) as [o|] eqn:Ho.
  - intros H. rewrite nth_error_replace_nth_eq in H.
    + injection H as <-. cbn [snd]. apply replace_nth_twice.
    + apply nth_error_Some. congruence.
  - congruence.
Qed.

Lemma splice_off_slot (a : string) (skel : list Segment) (i : nat) :
  i <> 2%nat -> nth_error (splice a skel) i = nth_error skel i.
Proof.
  intros H. unfold splice. destruct (nth_error skel 2); [|reflexivity].
  apply nth_error_replace_nth_neq. congruence.
Qed.

Lemma listing_eqb_eq (a b : Listing) : listing_eqb a b = true <-> a = b.
Proof. destruct a, b; simpl; split; congruence. Qed.

Lemma key_eqb_eq (a b : Key) : key_eqb a b = true <-> a = b.
Proof.
  destruct a as [[i w] m], b as [[i' w'] m']. unfold key_eqb.
  rewrite !andb_true_iff, Nat.eqb_eq, Z.eqb_eq, listing_eqb_eq.
  split; [intros [[-> ->] ->]; reflexivity | intros H; injection H; auto].
Qed.

Lemma key_eqb_refl (k : Key) : key_eqb k k = true.
Proof. now apply key_eqb_eq. Qed.

Lemma lru_find_In (k : Key) (c : list (Key * nat)) (loc : nat) :
  lru_find k c = Some loc -> exists k', key_eqb k k' = true /\ In (k', loc) c.
Proof.
  induction c as [|[k' l] c IH]; simpl; [discriminate|].
  destruct (key_eqb k k') eqn:E.
  - intros H; injection H as <-. eauto.
  - intros H. destruct (IH H) as (k2 & Hk & Hin). eauto.
Qed.

Lemma lru_find_remove_other (k k' : Key) (c : list (Key * nat)) :
  key_eqb k k' = false -> lru_find k (lru_remove k' c) = lru_find k c.
Proof.
  intros Hne. induction c as [|[k2 l] c IH]; simpl; [reflexivity|].
  destruct (key_eqb k' k2) eqn:E; simpl.
  - apply key_eqb_eq in E. subst k2. rewrite Hne. assumption.
  - rewrite IH. reflexivity.
Qed.

Lemma lru_find_firstn (k : Key) (n : nat) (c : list (Key * nat)) (loc : nat) :
  lru_find k (firstn n c) = Some loc -> lru_find k c = Some loc.
Proof.
  revert n. induction c as [|[k' l] c IH]; intros [|n]; simpl; try discriminate.
  destruct (key_eqb k k'); [auto | apply IH].
Qed.

Lemma In_firstn {A} (x : A) (n : nat) (l : list A) : In x (firstn n l) -> In x l.
Proof.
  revert n. induction l as [|y l IH]; intros [|n]; simpl; try tauto.
  intros [H|H]; [auto | right; eapply IH; eassumption].
Qed.

Lemma In_lru_remove (e : Key * nat) (k : Key) (c : list (Key * nat)) :
  In e (lru_remove k c) -> In e c.
Proof. unfold lru_remove. intros H. apply filter_In in H. tauto. Qed.

(* ------------------------------------------------------------------ *)
(** ** The listing entry and its cache *)

Section EntryFacts.

Variable env : Env.
Variable self : ConnectionLine.

(** The list the body builds has its six segments. *)
Lemma _get_listing_entry_shape (w : Z) (m : Listing) (skel : list Segment) :
  _get_listing_entry env self w m = Ret skel ->
  exists content,
    _get_listing_content env self (w - 19) m = Ret content /\
    skel = [(" ", get_color env (CATEGORY_COLOR env (my_type self)));
            (content, get_color env (CATEGORY_COLOR env (my_type self)));
            ("      ", get_color env (CATEGORY_COLOR env (my_type self)));
            (" (", get_color env (CATEGORY_COLOR env (my_type self)));
            (upper (category_name (my_type self)),
             Z.lor (get_color env (CATEGORY_COLOR env (my_type self))) (A_BOLD env));
            (")" +++ spaces (9 - len (category_name (my_type self))),
             get_color env (CATEGORY_COLOR env (my_type self)))].
Proof.
  unfold _get_listing_entry.
  destruct (_get_listing_content env self (w - 19) m) as [content|]; simpl; [|discriminate].
  intros H; injection H as <-. eauto.
Qed.

Lemma splice_placeholder (w : Z) (m : Listing) (skel : list Segment) :
  _get_listing_entry env self w m = Ret skel -> splice "      " skel = skel.
Proof.
  intros H. apply _get_listing_entry_shape in H. destruct H as (content & _ & ->).
  reflexivity.
Qed.

Lemma splice_has_slot (w : Z) (m : Listing) (skel : list Segment) (text : string) :
  _get_listing_entry env self w m = Ret skel ->
  nth_error (splice text skel) 2 =
    Some (text, get_color env (CATEGORY_COLOR env (my_type self))).
Proof.
  intros H. apply _get_listing_entry_shape in H. destruct H as (content & _ & ->).
  reflexivity.
Qed.

(** What the decorated call does to a cache that is in step. *)
Lemma _get_listing_entry_cached_spec (w : Z) (m : Listing) (st : State) :
  cache_ok env self st ->
  let '(r, st') := _get_listing_entry_cached env self w m st in
  cache_ok env self st' /\
  match r with
  | Ret loc =>
      exists skel text,
        _get_listing_entry env self w m = Ret skel /\
        objects st' loc = splice text skel /\
        ((1 <= maxsize env)%nat ->
         lru_find (line_id self, w, m) (cache st') = Some loc)
  | Raise e => _get_listing_entry env self w m = Raise e /\ st' = st
  end.
Proof.
  intros [Hfresh Hown]. unfold _get_listing_entry_cached.
  set (key := (line_id self, w, m)).
  destruct (lru_find key (cache st)) as [loc|] eqn:Hfind.
  - (* a hit *)
    split; [split|]; cbn [objects next cache].
    + intros k l [H|H]; [|apply In_lru_remove in H; eauto].
      injection H as <- <-. apply lru_find_In in Hfind.
      destruct Hfind as (k' & _ & Hin). eauto.
    + intros w' m' l. cbn [lru_find].
      destruct (key_eqb (line_id self, w', m') key) eqn:E.
      * apply key_eqb_eq in E. subst key. injection E as -> ->.
        intros H; injection H as <-. auto.
      * rewrite lru_find_remove_other by assumption. auto.
    + destruct (Hown w m loc Hfind) as (skel & text & Hs & Ho).
      exists skel, text. repeat split; try assumption.
      intros _. cbn [lru_find]. now rewrite key_eqb_refl.
  - (* a miss *)
    destruct (_get_listing_entry env self w m) as [skel|e] eqn:Hbody.
    + split; [split|]; cbn [objects next cache].
      * intros k l H. apply In_firstn in H. destruct H as [H|H].
        -- injection H as <- <-. lia.
        -- apply Hfresh in H. lia.
      * intros w' m' l H. apply lru_find_firstn in H. cbn [lru_find] in H.
        unfold set_object.
        destruct (key_eqb (line_id self, w', m') key) eqn:E.
        -- injection H as <-. apply key_eqb_eq in E. subst key. injection E as -> ->.
           rewrite Nat.eqb_refl. exists skel, "      ".
           split; [assumption|]. symmetry. eapply splice_placeholder; eassumption.
        -- pose proof H as Hin. apply lru_find_In in Hin.
           destruct Hin as (k' & _ & Hin). apply Hfresh in Hin.
           destruct (Nat.eqb_spec l (next st)); [lia|]. auto.
      * exists skel, "      ". split; [reflexivity|]. split.
        -- unfold set_object. rewrite Nat.eqb_refl. symmetry.
           eapply splice_placeholder; eassumption.
        -- intros Hsize. destruct (maxsize env) as [|n]; [lia|].
           cbn [firstn lru_find]. now rewrite key_eqb_refl.
    + split; [split; assumption | split; reflexivity].
Qed.

(** What [get_listing_entry] does to a cache that is in step: the list
    it returns is the skeleton with the age of this call. *)
Lemma get_listing_entry_spec (w t : Z) (m : Listing) (st : State) :
  cache_ok env self st ->
  let '(r, st') := get_listing_entry env self w t m st in
  cache_ok env self st' /\
  match r with
  | Ret loc =>
      exists skel,
        _get_listing_entry env self w m = Ret skel /\
        objects st' loc = splice (age_label env self t) skel /\
        ((1 <= maxsize env)%nat ->
         lru_find (line_id self, w, m) (cache st') = Some loc)
  | Raise e => _get_listing_entry env self w m = Raise e /\ st' = st
  end.
Proof.
  intros Hok. unfold get_listing_entry.
  pose proof (_get_listing_entry_cached_spec w m st Hok) as Hc.
  destruct (_get_listing_entry_cached env self w m st) as [[loc|e] st1]; [|assumption].
  destruct Hc as ([Hfresh Hown] & skel & text & Hbody & Hobj & Hcached).
  rewrite Hobj, (splice_has_slot w m skel text Hbody). cbn [snd].
  pose proof (splice_splice (age_label env self t) text skel _
                (splice_has_slot w m skel text Hbody)) as Hnew.
  cbn [snd] in Hnew. rewrite Hnew.
  split; [split|]; cbn [objects next cache].
  - assumption.
  - intros w' m' l H. destruct (Hown w' m' l H) as (skel' & text' & Hb' & Ho').
    unfold set_object. destruct (Nat.eqb_spec l loc) as [->|].
    + exists skel, (age_label env self t). split; [|reflexivity].
      (* the list at [loc] is built from one skeleton *)
      rewrite Hobj in Ho'.
      pose proof (_get_listing_entry_shape _ _ _ Hbody) as (c1 & _ & E1).
      pose proof (_get_listing_entry_shape _ _ _ Hb') as (c2 & _ & E2).
      rewrite E1, E2 in Ho'. cbv [splice nth_error replace_nth snd] in Ho'.
      injection Ho' as Hc _. rewrite Hb', E1, E2, Hc. reflexivity.
    + eauto.
  - exists skel. split; [assumption|]. split; [|assumption].
    unfold set_object. now rewrite Nat.eqb_refl.
Qed.

End EntryFacts.

(* ------------------------------------------------------------------ *)
(** ** The width of a listing row *)

Lemma cache_ok_empty (env : Env) (self : ConnectionLine) : cache_ok env self empty_state.
Proof. split; cbn; [contradiction | discriminate]. Qed.

Lemma len_category_name (c : Category) : len (category_name c) <= 9.
Proof. destruct c; cbv; discriminate. Qed.

Lemma len_age_label (env : Env) (self : ConnectionLine) (t : Z) :
  len (age_label env self t)
  = 1 + Z.max 5 (len (time_label env (t - start_time (connection self)))).
Proof.
  unfold age_label. rewrite len_app, len_rjust.
  destruct (is_legacy (connection self)); reflexivity.
Qed.

(** The printable length of a spliced skeleton: the content, the age
    and the thirteen characters around them. *)
Lemma len_row_text_splice (env : Env) (self : ConnectionLine) (w : Z) (m : Listing)
    (skel : list Segment) (text : string) :
  _get_listing_entry env self w m = Ret skel ->
  exists content,
    _get_listing_content env self (w - 19) m = Ret content /\
    len (row_text (splice text skel)) = len content + len text + 13.
Proof.
  intros H. apply _get_listing_entry_shape in H. destruct H as (content & Hc & ->).
  exists content. split; [assumption|].
  cbv [splice nth_error replace_nth snd row_text fold_right fst].
  rewrite !len_app, len_upper, len_spaces.
  pose proof (len_category_name (my_type self)).
  change (len " ") with 1. change (len " (") with 2. change (len ")") with 1.
  change (len "") with 0. lia.
Qed.

(** C1 (amended): for every listing mode and connection, and every width
    [w] whose content budget [w - 19] covers the base fields of the mode
    (11 and the src and dst fields when listing by address, 60 when
    listing by fingerprint, 61 when listing by nickname), the row that
    [get_listing_entry] returns has printable length exactly [w],
    provided the fingerprint takes at most 40 characters, the age label
    at most 5, and an expanded internal address, where one is shown, is
    at most 21 characters long on a row that is not inbound. *)
Theorem listing_row_fills_width (env : Env) (self : ConnectionLine)
    (w t : Z) (mode : Listing) (st : State) :
  cache_ok env self st ->
  len (get_fingerprint_or env self "UNKNOWN") <= 40 ->
  len (time_label env (t - start_time (connection self))) <= 5 ->
  row_fits env self w mode ->
  exists loc st',
    get_listing_entry env self w t mode st = (Ret loc, st') /\
    len (row_text (objects st' loc)) = w.
Proof.
  intros Hok Hfp Hage Hfit.
  pose proof (get_listing_entry_spec env self w t mode st Hok) as Hspec.
  destruct (len_listing_content env self Hfp w mode Hfit) as (content & Hcontent & Hlen).
  destruct (get_listing_entry env self w t mode st) as [[loc|e] st'].
  - destruct Hspec as (_ & skel & Hbody & Hobj & _).
    exists loc, st'. split; [reflexivity|]. rewrite Hobj.
    destruct (len_row_text_splice env self w mode skel (age_label env self t) Hbody)
      as (content' & Hc' & ->).
    rewrite Hcontent in Hc'. injection Hc' as <-.
    rewrite len_age_label. lia.
  - destruct Hspec as (_ & Hbody & _). exfalso.
    unfold _get_listing_entry in Hbody. rewrite Hcontent in Hbody. discriminate.
Qed.

Lemma listing_row_fills_width_witness :
  exists loc st',
    get_listing_entry Demo.env Demo.outbound 150 1060 IP_ADDRESS empty_state = (Ret loc, st') /\
    len (row_text (objects st' loc)) = 150.
Proof.
  apply (listing_row_fills_width Demo.env Demo.outbound 150 1060 IP_ADDRESS empty_state).
  - apply cache_ok_empty.
  - vm_compute. discriminate.
  - vm_compute. discriminate.
  - intros d Hd. vm_compute in Hd. injection Hd as <-. vm_compute.
    split; [discriminate|]. intros _. split; discriminate.
Defined.

(** C1, as stated, fails: at width 0 the row of an outbound connection
    listed by address comes out 152 characters long. *)
Lemma listing_row_width_0_overflows :
  fst (get_listing_entry Demo.env Demo.outbound 0 1060 IP_ADDRESS empty_state) = Ret 0%nat /\
  len (row_text (objects
         (snd (get_listing_entry Demo.env Demo.outbound 0 1060 IP_ADDRESS empty_state))
         0%nat)) = 152.
Proof. vm_compute. split; reflexivity. Qed.

(* ------------------------------------------------------------------ *)
(** ** The optional columns: what they fill *)

(** C2: [get_etc_content] is to return a string exactly as long as the
    width it is given.  Listing by address it does not: the nickname
    column takes the whole remaining width, not the width less the two
    spaces that follow it, and, asked for 60 characters, the method
    returns 62. *)
Theorem etc_content_ip_nickname_exceeds_width :
  get_etc_content Demo.env Demo.outbound 60 IP_ADDRESS
  = Ret "ABCDEF0123456789ABCDEF0123456789ABCDEF01  caerSidi            " /\
  len "ABCDEF0123456789ABCDEF0123456789ABCDEF01  caerSidi            " = 62.
Proof. split; vm_compute; reflexivity. Qed.

(** The same in general, next to the cases that fill the width: for a
    relay and a width that is not negative the field is exactly as wide
    as asked, but for the nickname column of an address listing. *)
Lemma etc_content_relay_width (env : Env) (self : ConnectionLine)
    (width : Z) (mode : Listing) :
  len (get_fingerprint_or env self "UNKNOWN") <= 40 ->
  is_application (my_type self) = false ->
  0 <= width ->
  exists s,
    get_etc_content env self width mode = Ret s /\
    len s = match mode with
            | IP_ADDRESS => if ip_nickname_column env width then width + 2 else width
            | _ => width
            end.
Proof.
  intros Hfp Happ Hw.
  destruct (get_etc_content_relay env self Hfp width mode Happ) as (s & Hs & Hlen).
  exists s. split; [assumption|].
  destruct (Z.ltb_spec width 0); [lia | assumption].
Qed.

(** With or without the fingerprint column: the columns of an address
    or nickname listing are the fingerprint field, when its guard holds,
    and the columns that follow it, and those columns alone when it does
    not. *)
Lemma etc_columns_split (env : Env) (self : ConnectionLine) (width : Z) (mode : Listing) :
  mode <> FINGERPRINT ->
  etc_columns env self width mode
  = if fingerprint_column env width 0
    then rest <- columns_after_fingerprint env self width 42 mode ;;
         Ret ((ljust 40 (get_fingerprint_or env self "UNKNOWN") +++ "  ") +++ fst rest,
              42 + snd rest)
    else columns_after_fingerprint env self width 0 mode.
Proof.
  intros Hmode. unfold etc_columns, columns_after_fingerprint.
  destruct (get_destination_label_returns env self 26 true) as [d ->]. cbn [bind].
  destruct mode; [| contradiction |].
  - destruct (fingerprint_column env width 0).
    + change (0 + 42) with 42.
      destruct ((42 + 10 <? width) && showColumn_nickname env).
      * destruct (crop (get_nickname env self "UNKNOWN") (width - 42) 0 ELLIPSE);
          reflexivity.
      * cbn [bind fst snd]. now rewrite append_nil_r.
    + destruct ((0 + 10 <? width) && showColumn_nickname env); [|reflexivity].
      destruct (crop (get_nickname env self "UNKNOWN") (width - 0) 0 ELLIPSE);
        reflexivity.
  - destruct (fingerprint_column env width 0).
    + change (0 + 42) with 42.
      destruct ((42 + 28 <? width) && showColumn_destination env).
      * reflexivity.
      * cbn [bind fst snd]. now rewrite append_nil_r.
    + destruct ((0 + 28 <? width) && showColumn_destination env); reflexivity.
Qed.

(** C3 (amended): in the two listings that have a fingerprint column,
    by address and by nickname, where no space is used before it: at a
    remaining width of [used_space + 43] the column is included if and
    only if the toggle is on; at [used_space + 42] and at
    [used_space + 41] it is excluded whatever the toggle, and the text
    is that of the other columns alone.  When included it is the first
    column and takes exactly 42 characters: the fingerprint
    left-justified in 40, and two spaces. *)
Theorem fingerprint_column_boundary (env : Env) (self : ConnectionLine) (used_space : Z) :
  (* the guard *)
  fingerprint_column env (used_space + 43) used_space = showColumn_fingerprint env /\
  fingerprint_column env (used_space + 42) used_space = false /\
  fingerprint_column env (used_space + 41) used_space = false /\
  (* the columns drawn *)
  (forall mode,
     mode <> FINGERPRINT ->
     (showColumn_fingerprint env = true ->
      etc_columns env self 43 mode
      = Ret (ljust 40 (get_fingerprint_or env self "UNKNOWN") +++ "  ", 42)) /\
     (showColumn_fingerprint env = false ->
      etc_columns env self 43 mode = columns_after_fingerprint env self 43 0 mode) /\
     etc_columns env self 42 mode = columns_after_fingerprint env self 42 0 mode /\
     etc_columns env self 41 mode = columns_after_fingerprint env self 41 0 mode) /\
  (* at every width *)
  (forall width mode,
     mode <> FINGERPRINT ->
     etc_columns env self width mode
     = if (42 <? width) && showColumn_fingerprint env
       then rest <- columns_after_fingerprint env self width 42 mode ;;
            Ret ((ljust 40 (get_fingerprint_or env self "UNKNOWN") +++ "  ") +++ fst rest,
                 42 + snd rest)
       else columns_after_fingerprint env self width 0 mode) /\
  (len (get_fingerprint_or env self "UNKNOWN") <= 40 ->
   len (ljust 40 (get_fingerprint_or env self "UNKNOWN") +++ "  ") = 42).
Proof.
  split; [|split; [|split; [|split; [|split]]]].
  - unfold fingerprint_column.
    destruct (Z.ltb_spec (used_space + 42) (used_space + 43)); [reflexivity | lia].
  - unfold fingerprint_column.
    destruct (Z.ltb_spec (used_space + 42) (used_space + 42)); [lia | reflexivity].
  - unfold fingerprint_column.
    destruct (Z.ltb_spec (used_space + 42) (used_space + 41)); [lia | reflexivity].
  - intros mode Hmode. repeat split.
    + intros Hon. rewrite etc_columns_split by assumption.
      unfold fingerprint_column. rewrite Hon.
      change ((0 + 42 <? 43) && true) with true. cbv iota.
      unfold columns_after_fingerprint.
      destruct (get_destination_label_returns env self 26 true) as [d ->]. cbn [bind].
      destruct mode; [| contradiction |];
        change (42 + 10 <? 43) with false; change (42 + 28 <? 43) with false;
        cbn [andb bind fst snd]; now rewrite append_nil_r.
    + intros Hoff. rewrite etc_columns_split by assumption.
      unfold fingerprint_column. rewrite Hoff. now rewrite andb_false_r.
    + rewrite etc_columns_split by assumption. reflexivity.
    + rewrite etc_columns_split by assumption. reflexivity.
  - intros width mode Hmode. rewrite etc_columns_split by assumption. reflexivity.
  - intros Hfp. apply len_fingerprint_field. assumption.
Qed.

Lemma fingerprint_column_boundary_witness :
  etc_columns Demo.env Demo.outbound 43 NICKNAME = Ret (ljust 40 Demo.fp40 +++ "  ", 42) /\
  etc_columns Demo.env Demo.outbound 42 NICKNAME
  = columns_after_fingerprint Demo.env Demo.outbound 42 0 NICKNAME /\
  len (ljust 40 Demo.fp40 +++ "  ") = 42.
Proof.
  destruct (fingerprint_column_boundary Demo.env Demo.outbound 0)
    as (_ & _ & _ & Hcols & _ & Hlen).
  destruct (Hcols NICKNAME ltac:(discriminate)) as (H43 & _ & H42 & _).
  split; [apply H43; reflexivity|]. split; [exact H42|].
  apply Hlen. vm_compute. discriminate.
Defined.

(** C3, as stated, fails: with the toggle on and a remaining width of
    exactly [used_space + 42] the fingerprint column is left out; the
    field holds the destination column alone. *)
Lemma fingerprint_column_excluded_at_42 :
  showColumn_fingerprint Demo.env = true /\
  fingerprint_column Demo.env (0 + 42) 0 = false /\
  get_etc_content Demo.env Demo.outbound 42 NICKNAME
  = Ret "5.6.7.8:443 (us)                          ".
Proof. repeat split; vm_compute; reflexivity. Qed.

(** C10 (amended): for the categories owned by an application
    [get_etc_content] returns at every width, and never raises.  Its
    label is the name and pid of the owning process (the bare name
    without a pid), ["resolving..."] or ["UNKNOWN"].  When the label is
    shorter than the width the field is the label followed by spaces up
    to the width; when it is as long as the width or longer, so also
    when it would fit exactly, the field is empty.  The field is never a
    cut label. *)
Theorem application_etc_content (env : Env) (self : ConnectionLine)
    (width : Z) (mode : Listing) :
  is_application (my_type self) = true ->
  let port := if category_eqb (my_type self) HIDDEN
              then local_port (connection self) else remote_port (connection self) in
  let label :=
    match fetch env port with
    | Process name (Some pid) =>
        if pid =? 0 then name else name +++ " (" +++ str_of_Z pid +++ ")"
    | Process name None => name
    | UnresolvedResult => "resolving..."
    | UnknownApplication => "UNKNOWN"
    end in
  exists field,
    get_etc_content env self width mode = Ret field /\
    (len label < width ->
     field = label +++ spaces (width - len label) /\ len field = width) /\
    (width <= len label -> field = "").
Proof.
  intros Happ. cbv zeta. rewrite get_etc_content_application by assumption.
  fold (display_label env self).
  eexists. split; [reflexivity|].
  destruct (Z.ltb_spec (len (display_label env self)) width); split; intros Hw;
    try lia; try reflexivity.
  split; [reflexivity|]. rewrite len_app, len_spaces. lia.
Qed.

Lemma application_etc_content_witness :
  exists field,
    get_etc_content Demo.env Demo.control 20 IP_ADDRESS = Ret field /\
    (len "python (1234)" < 20 ->
     field = "python (1234)" +++ spaces (20 - len "python (1234)") /\ len field = 20) /\
    (20 <= len "python (1234)" -> field = "").
Proof.
  apply (application_etc_content Demo.env Demo.control 20 IP_ADDRESS). reflexivity.
Defined.

(** C10, as stated, fails at one width: a label exactly as long as the
    width fits it, and is dropped all the same. *)
Lemma application_label_of_exact_width_dropped :
  display_label Demo.env Demo.control = "python (1234)" /\
  len "python (1234)" = 13 /\
  get_etc_content Demo.env Demo.control 13 IP_ADDRESS = Ret "" /\
  get_etc_content Demo.env Demo.control 14 IP_ADDRESS = Ret "python (1234) ".
Proof. repeat split; vm_compute; reflexivity. Qed.

(* ------------------------------------------------------------------ *)
(** ** The destination label: purpose and scrubbing *)

(** C7 (amended): for an exit connection with a visible port whose
    purpose is ["BitTorrent"], an annotation budget of 10 characters or
    more renders ["BitTorrent"], a budget of 7 to 9 renders
    ["Torrent"], a budget of 6 or 5 renders the hyphen-truncated
    ["Torre-"] or ["Torr-"], and a budget of 2 to 4 (3 among them)
    renders an empty purpose. *)
Theorem bittorrent_purpose (env : Env) (self : ConnectionLine)
    (max_length : Z) (include_locale : bool) :
  my_type self = EXIT ->
  dest_include_port env self = true ->
  port_usage env (remote_port (connection self)) = Some "BitTorrent" ->
  let destination_address := address_label self +++ port_label env self in
  let space_available := max_length - len destination_address - 3 in
  2 <= space_available ->
  get_destination_label env self max_length include_locale
  = Ret (destination_address +++ " (" +++
         (if 10 <=? space_available then "BitTorrent"
          else if 7 <=? space_available then "Torrent"
          else if space_available =? 6 then "Torre-"
          else if space_available =? 5 then "Torr-"
          else "") +++ ")").
Proof.
  intros Htype Hport Husage. cbv zeta. intros Hroom.
  unfold get_destination_label.
  set (d := address_label self +++ port_label env self) in *.
  set (n := max_length - len d - 3) in *.
  destruct (Z.leb_spec (len d + 5) max_length) as [_|]; [|lia].
  rewrite Htype, Hport, Husage. cbn [category_eqb andb truthy].
  change (len "BitTorrent") with 10.
  assert (Hfits : forall p, len p <= n ->
            slice_to (d +++ " (" +++ p +++ ")") max_length = d +++ " (" +++ p +++ ")").
  { intros p Hp. apply slice_to_fits. rewrite !len_app.
    change (len " (") with 2. change (len ")") with 1. lia. }
  destruct (Z.leb_spec 10 n) as [H10|H10].
  - destruct (Z.ltb_spec n 10); [lia|]. cbn [andb].
    rewrite crop_fits by (change (len "BitTorrent") with 10; lia).
    cbn [bind]. rewrite Hfits by (change (len "BitTorrent") with 10; lia). reflexivity.
  - destruct (Z.ltb_spec n 10); [|lia]. cbn [andb String.eqb Ascii.eqb Bool.eqb].
    destruct (Z.leb_spec 7 n) as [H7|H7].
    + rewrite crop_fits by (change (len "Torrent") with 7; lia).
      cbn [bind]. rewrite Hfits by (change (len "Torrent") with 7; lia). reflexivity.
    + assert (Hn : n = 6 \/ n = 5 \/ n = 4 \/ n = 3 \/ n = 2) by lia.
      destruct Hn as [Hn|[Hn|[Hn|[Hn|Hn]]]]; rewrite Hn in *;
        cbn [Z.eqb Pos.eqb];
        match goal with |- context [crop ?p ?k 4 HYPHEN] =>
          let r := eval vm_compute in (crop p k 4 HYPHEN) in
          change (crop p k 4 HYPHEN) with r
        end;
        cbn [bind]; rewrite Hfits; try reflexivity; vm_compute; discriminate.
Qed.

Lemma bittorrent_purpose_witness :
  get_destination_label Demo.env Demo.torrent 22 true = Ret "1.2.3.4:6881 (Torrent)" /\
  get_destination_label Demo.env Demo.torrent 20 true = Ret "1.2.3.4:6881 (Torr-)".
Proof.
  split.
  - apply (bittorrent_purpose Demo.env Demo.torrent 22 true);
      [reflexivity | reflexivity | reflexivity | vm_compute; discriminate].
  - apply (bittorrent_purpose Demo.env Demo.torrent 20 true);
      [reflexivity | reflexivity | reflexivity | vm_compute; discriminate].
Defined.

(** C7, as stated, fails: with a budget of 6 characters the purpose
    renders as ["Torre-"], not as the seven characters of ["Torrent"],
    and with a budget of 3 it renders empty, not hyphen-truncated. *)
Lemma bittorrent_budget_6_and_3 :
  21 - len "1.2.3.4:6881" - 3 = 6 /\
  get_destination_label Demo.env Demo.torrent 21 true = Ret "1.2.3.4:6881 (Torre-)" /\
  18 - len "1.2.3.4:6881" - 3 = 3 /\
  get_destination_label Demo.env Demo.torrent 18 true = Ret "1.2.3.4:6881 ()".
Proof. repeat split; vm_compute; reflexivity. Qed.

Lemma substring_0_app_ge (p r : string) (n : nat) :
  (String.length p <= n)%nat ->
  substring 0 n (p +++ r) = p +++ substring 0 (n - String.length p) r.
Proof.
  revert n. induction p as [|c p IH]; intros n H; cbn [append String.length].
  - now rewrite Nat.sub_0_r.
  - destruct n as [|n]; [cbn in H; lia|]. cbn [substring Nat.sub].
    rewrite IH by (cbn in H; lia). reflexivity.
Qed.

Lemma substring_0_app_le (p r : string) (n : nat) :
  (n <= String.length p)%nat -> substring 0 n (p +++ r) = substring 0 n p.
Proof.
  revert n. induction p as [|c p IH]; intros n H; cbn [append String.length] in *.
  - assert (n = 0%nat) as -> by lia. destruct r; reflexivity.
  - destruct n as [|n]; [reflexivity|]. cbn [substring].
    rewrite IH by lia. reflexivity.
Qed.

(** A cut that leaves the front whole, and a cut within the front. *)
Lemma slice_to_app_ge (p r : string) (n : Z) :
  len p <= n -> slice_to (p +++ r) n = p +++ slice_to r (n - len p).
Proof.
  intros H. pose proof (len_nonneg p). unfold slice_to, len in *.
  destruct (Z.leb_spec 0 n); [|lia].
  destruct (Z.leb_spec 0 (n - Z.of_nat (String.length p))); [|lia].
  rewrite substring_0_app_ge by lia. do 2 f_equal. lia.
Qed.

Lemma slice_to_app_le (p r : string) (n : Z) :
  0 <= n <= len p -> slice_to (p +++ r) n = slice_to p n.
Proof.
  intros H. unfold slice_to, len in *.
  destruct (Z.leb_spec 0 n); [|lia].
  apply substring_0_app_le. lia.
Qed.

(** C8 (amended): for a private entry and every [max_length] the label
    is the [max_length] cut of a text that has the scrub token where the
    address would stand.  So the token stands in full at the front of
    the label for every [max_length] of 10 or more, and for a
    [max_length] from 0 to 9 the label is the token cut to that length.
    The remote address does not enter the label: the same line with any
    other remote address, for which the collaborators answer alike,
    gets the same label. *)
Theorem private_label_scrubbed (env : Env) (self : ConnectionLine)
    (max_length : Z) (include_locale : bool) :
  is_private (_entry self) = true ->
  (exists rest,
     get_destination_label env self max_length include_locale
     = Ret (slice_to ("<scrubbed>" +++ rest) max_length)) /\
  (10 <= max_length ->
   exists rest,
     get_destination_label env self max_length include_locale
     = Ret ("<scrubbed>" +++ rest)) /\
  (0 <= max_length < 10 ->
   get_destination_label env self max_length include_locale
   = Ret (slice_to "<scrubbed>" max_length)) /\
  (forall a,
     is_private_address env a = is_private_address env (remote_address (connection self)) ->
     get_info_ip_to_country env a
       = get_info_ip_to_country env (remote_address (connection self)) ->
     get_destination_label env (with_remote_address a self) max_length include_locale
     = get_destination_label env self max_length include_locale).
Proof.
  intros Hprivate.
  assert (Hcut : exists rest,
     get_destination_label env self max_length include_locale
     = Ret (slice_to ("<scrubbed>" +++ rest) max_length)).
  { unfold get_destination_label, address_label. rewrite Hprivate.
    set (d0 := "<scrubbed>" +++ port_label env self).
    destruct (len d0 + 5 <=? max_length) eqn:Hroom;
      [|exists (port_label env self); reflexivity].
    apply Z.leb_le in Hroom.
    destruct (category_eqb (my_type self) EXIT && dest_include_port env self).
    + destruct (truthy (port_usage env (remote_port (connection self)))) as [purpose|];
        [|exists (port_label env self); reflexivity].
      match goal with |- context [crop ?p ?n 4 HYPHEN] =>
        destruct (crop_returns p n 4 HYPHEN) as [r Hr]; [lia | lia | lia |]; rewrite Hr
      end.
      cbn [bind]. exists (port_label env self +++ " (" +++ r +++ ")").
      subst d0. now rewrite append_assoc.
    + destruct (negb (is_private_address env (remote_address (connection self))));
        [|exists (port_label env self); reflexivity].
      destruct (include_locale && negb (is_geoip_unavailable env)).
      * cbn [bind]. eexists (port_label env self +++ _).
        subst d0. now rewrite append_assoc.
      * exists (port_label env self). reflexivity. }
  split; [assumption|]. split; [|split].
  - intros Hwide. destruct Hcut as [rest ->].
    exists (slice_to rest (max_length - len "<scrubbed>")).
    now rewrite slice_to_app_ge by (change (len "<scrubbed>") with 10; lia).
  - intros Hnarrow. destruct Hcut as [rest ->].
    now rewrite slice_to_app_le by (change (len "<scrubbed>") with 10; lia).
  - intros a Hpa Hloc.
    unfold get_destination_label, address_label, port_label, dest_include_port,
      get_locale, my_type, with_remote_address.
    cbn [_entry connection remote_address remote_port include_port get_type is_private].
    rewrite Hprivate, Hpa, Hloc. reflexivity.
Qed.

Lemma private_label_scrubbed_witness :
  (exists rest,
     get_destination_label Demo.env Demo.inbound 26 true = Ret ("<scrubbed>" +++ rest)) /\
  get_destination_label Demo.env Demo.inbound 5 true = Ret (slice_to "<scrubbed>" 5) /\
  get_destination_label Demo.env (with_remote_address "8.8.8.8" Demo.inbound) 26 true
  = get_destination_label Demo.env Demo.inbound 26 true.
Proof.
  destruct (private_label_scrubbed Demo.env Demo.inbound 26 true eq_refl)
    as (_ & Hwide & _ & Hsame).
  destruct (private_label_scrubbed Demo.env Demo.inbound 5 true eq_refl)
    as (_ & _ & Hnarrow & _).
  split; [apply Hwide; lia|]. split; [apply Hnarrow; lia|].
  apply Hsame; reflexivity.
Defined.

(** C8, as stated, fails for short labels: the token does not appear at
    every width.  At a [max_length] of 5 the label of a private entry is
    the first five characters of the token, at 0 it is empty, and at -8
    the text loses its last eight characters. *)
Lemma private_label_token_cut :
  get_destination_label Demo.env Demo.inbound 5 true = Ret "<scru" /\
  get_destination_label Demo.env Demo.inbound 0 true = Ret "" /\
  get_destination_label Demo.env Demo.inbound (-8) true = Ret "<scrubbe".
Proof. repeat split; vm_compute; reflexivity. Qed.

(* ------------------------------------------------------------------ *)
(** ** The detail page *)









(* ------------------------------------------------------------------ *)
(** ** The swap of src and dst *)

Lemma etc_columns_returns (env : Env) (self : ConnectionLine) (width : Z) (mode : Listing) :
  exists p, etc_columns env self width mode = Ret p.
Proof.
  unfold etc_columns.
  destruct (get_destination_label_returns env self 26 true) as [d Hd].
  rewrite Hd. cbn [bind].
  assert (Hnick : forall space, 2 <= space ->
            exists label, crop (get_nickname env self "UNKNOWN") space 0 ELLIPSE = Ret label).
  { intros space Hs. apply crop_returns; [lia | lia | discriminate]. }
  destruct mode.
  - destruct (fingerprint_column env width 0) eqn:Hfc.
    + unfold fingerprint_column in Hfc. apply andb_prop in Hfc. destruct Hfc as [_ _].
      destruct ((0 + 42 + 10 <? width) && showColumn_nickname env) eqn:Hn; [|eauto].
      apply andb_prop in Hn. destruct Hn as [Hw _]. apply Z.ltb_lt in Hw.
      destruct (Hnick (width - (0 + 42)) ltac:(lia)) as [label ->]. cbn [bind]. eauto.
    + destruct ((0 + 10 <? width) && showColumn_nickname env) eqn:Hn; [|eauto].
      apply andb_prop in Hn. destruct Hn as [Hw _]. apply Z.ltb_lt in Hw.
      destruct (Hnick (width - 0) ltac:(lia)) as [label ->]. cbn [bind]. eauto.
  - destruct (Z.ltb_spec (0 + 17) width) as [Hw|]; [|eauto].
    destruct ((0 + 45 <? width) && showColumn_destination env) eqn:Hloc.
    + apply andb_prop in Hloc. destruct Hloc as [Hw' _]. apply Z.ltb_lt in Hw'.
      destruct (showColumn_nickname env); cbn [bind]; [|eauto].
      destruct (Hnick (width - 0 - 2 - 28) ltac:(lia)) as [label ->]. cbn [bind]. eauto.
    + destruct (showColumn_nickname env); cbn [bind]; [|eauto].
      destruct (Hnick (width - 0 - 2) ltac:(lia)) as [label ->]. cbn [bind]. eauto.
  - destruct (fingerprint_column env width 0);
      match goal with |- context [if ?b then _ else _] => destruct b end; eauto.
Qed.

Lemma get_etc_content_returns (env : Env) (self : ConnectionLine) (width : Z) (mode : Listing) :
  exists s, get_etc_content env self width mode = Ret s.
Proof.
  unfold get_etc_content. destruct (is_application (my_type self)).
  - destruct (_ <? _); eauto.
  - destruct (etc_columns_returns env self width mode) as [p ->]. cbn [bind]. eauto.
Qed.

(** The destination label looks at the category only to tell exits. *)
Lemma get_destination_label_with_type (env : Env) (self : ConnectionLine) (c : Category)
    (max_length : Z) (include_locale : bool) :
  my_type self <> EXIT -> c <> EXIT ->
  get_destination_label env (with_type c self) max_length include_locale
  = get_destination_label env self max_length include_locale.
Proof.
  intros Hself Hc.
  unfold get_destination_label, address_label, port_label, dest_include_port, get_locale,
    my_type, with_type in *.
  cbn [_entry connection include_port get_type is_private].
  destruct (get_type (_entry self)), c; try contradiction; reflexivity.
Qed.

(** Among the categories that build their row from the external
    address, the guard of the expanded address does not look at the
    category. *)
Lemma expanded_address_shown_with_type (env : Env) (self : ConnectionLine) (c : Category)
    (width used_space : Z) :
  is_application (my_type self) = false ->
  is_application c = false ->
  expanded_address_shown env (with_type c self) width used_space
  = expanded_address_shown env self width used_space.
Proof.
  intros Hself Hc.
  unfold expanded_address_shown, is_expansion_type, address_differ, my_external_address.
  replace (my_type (with_type c self)) with c by reflexivity.
  rewrite Hself, Hc. reflexivity.
Qed.

(** C9 (amended): listing by address, the row of an inbound connection
    shows the destination field first and the source field second: the
    two fields of the row of the same connection as an outbound,
    circuit or directory connection, in opposite order; with the
    internal address shown the inbound row reads foreign, external,
    internal and the other internal, external, foreign.  Listing by
    address, a SOCKS or CONTROL row is composed with the destination in
    src and the local address in dst, and is not exchanged again.
    Listing by fingerprint, the inbound row reads [UNKNOWN] then
    [localhost]: its own fields exchanged, but not those of the other
    row, whose dst is the fingerprint.  In every mode the row is built
    from the composed fields, dst before src for an inbound connection
    and src before dst for every other. *)
Theorem inbound_row_swapped (env : Env) (self : ConnectionLine) (width : Z) :
  (forall c d,
     my_type self = INBOUND ->
     c = OUTBOUND \/ c = CIRCUIT \/ c = DIRECTORY ->
     get_destination_label env self 26 true = Ret d ->
     let src := ljust 21 (src_address env self) in
     let dst := ljust 26 d in
     let shown := expanded_address_shown env self width (11 + (len src + len dst)) in
     let used := if shown then 11 + (len src + len dst) + 28
                 else 11 + (len src + len dst) in
     exists etc_in etc_out,
       get_etc_content env self (width - used) IP_ADDRESS = Ret etc_in /\
       get_etc_content env (with_type c self) (width - used) IP_ADDRESS = Ret etc_out /\
       _get_listing_content env self width IP_ADDRESS
       = Ret (dst +++ "  -->  "
              +++ (if shown then ljust 21 src +++ "  -->  " +++ internal_address self
                   else src)
              +++ "  " +++ etc_in +++ spaces (width - (used + len etc_in) + 2)) /\
       _get_listing_content env (with_type c self) width IP_ADDRESS
       = Ret ((if shown then ljust 21 (internal_address self) +++ "  -->  " +++ src
               else src)
              +++ "  -->  " +++ dst
              +++ "  " +++ etc_out +++ spaces (width - (used + len etc_out) + 2))) /\
  (forall d,
     my_type self = SOCKS \/ my_type self = CONTROL ->
     get_destination_label env self 26 true = Ret d ->
     let src := ljust 21 d in
     let dst := ljust 26 (internal_address self) in
     let used := 11 + (len src + len dst) in
     exists etc,
       get_etc_content env self (width - used) IP_ADDRESS = Ret etc /\
       _get_listing_content env self width IP_ADDRESS
       = Ret (src +++ "  -->  " +++ dst
              +++ "  " +++ etc +++ spaces (width - (used + len etc) + 2))) /\
  (my_type self = INBOUND ->
   exists etc,
     get_etc_content env self (width - 60) FINGERPRINT = Ret etc /\
     _get_listing_content env self width FINGERPRINT
     = Ret (ljust 40 "UNKNOWN" +++ "  -->  " +++ "localhost"
            +++ "  " +++ etc +++ spaces (width - (60 + len etc) + 2))) /\
  (forall mode src dst etc used_space,
     listing_fields env self width mode = Ret (src, dst, etc, used_space) ->
     _get_listing_content env self width mode
     = Ret (if category_eqb (my_type self) INBOUND
            then dst +++ "  -->  " +++ src
                 +++ "  " +++ etc +++ spaces (width - used_space + 2)
            else src +++ "  -->  " +++ dst
                 +++ "  " +++ etc +++ spaces (width - used_space + 2))).
Proof.
  split; [|split; [|split]].
  - intros c d Hin Hc Hd. cbv zeta.
    assert (Happ : is_application (my_type self) = false) by (now rewrite Hin).
    assert (Happc : is_application c = false) by (destruct Hc as [->|[->| ->]]; reflexivity).
    assert (Hd' : get_destination_label env (with_type c self) 26 true = Ret d).
    { rewrite get_destination_label_with_type; [assumption | congruence |].
      destruct Hc as [->|[->| ->]]; discriminate. }
    assert (Hsrc : src_address env (with_type c self) = src_address env self).
    { unfold src_address, is_expansion_type.
      replace (my_type (with_type c self)) with c by reflexivity.
      now rewrite Happ, Happc. }
    unfold _get_listing_content, listing_fields.
    rewrite Hd, Hd'. cbn [bind].
    change (len (LABEL_FORMAT "" "" "" "") + LABEL_MIN_PADDING) with 11.
    unfold ip_src_dst. rewrite Hsrc.
    replace (my_type (with_type c self)) with c by reflexivity.
    rewrite Hin.
    assert (Hout : match c with
                   | SOCKS | CONTROL =>
                       (ljust 21 d, ljust 26 (src_address env self))
                   | _ => (ljust 21 (src_address env self), ljust 26 d)
                   end = (ljust 21 (src_address env self), ljust 26 d))
      by (destruct Hc as [->|[->| ->]]; reflexivity).
    rewrite Hout. cbv beta iota zeta.
    rewrite expanded_address_shown_with_type by assumption.
    replace (internal_address (with_type c self)) with (internal_address self) by reflexivity.
    unfold LABEL_FORMAT, LABEL_MIN_PADDING.
    destruct (expanded_address_shown env self width
                (11 + (len (ljust 21 (src_address env self)) + len (ljust 26 d)))).
    + destruct (get_etc_content_returns env self
                  (width - (11 + (len (ljust 21 (src_address env self)) + len (ljust 26 d))
                            + 28)) IP_ADDRESS) as [etc_in Hin_etc].
      destruct (get_etc_content_returns env (with_type c self)
                  (width - (11 + (len (ljust 21 (src_address env self)) + len (ljust 26 d))
                            + 28)) IP_ADDRESS) as [etc_out Hout_etc].
      exists etc_in, etc_out. rewrite Hin_etc, Hout_etc. cbn [bind].
      split; [reflexivity|]. split; [reflexivity|]. split.
      * now rewrite !append_assoc.
      * destruct Hc as [->|[->| ->]]; now rewrite !append_assoc.
    + destruct (get_etc_content_returns env self
                  (width - (11 + (len (ljust 21 (src_address env self)) + len (ljust 26 d))))
                  IP_ADDRESS) as [etc_in Hin_etc].
      destruct (get_etc_content_returns env (with_type c self)
                  (width - (11 + (len (ljust 21 (src_address env self)) + len (ljust 26 d))))
                  IP_ADDRESS) as [etc_out Hout_etc].
      exists etc_in, etc_out. rewrite Hin_etc, Hout_etc. cbn [bind].
      split; [reflexivity|]. split; [reflexivity|]. split.
      * reflexivity.
      * destruct Hc as [->|[->| ->]]; reflexivity.
  - intros d Htype Hd. cbv zeta.
    assert (Happ : is_application (my_type self) = true)
      by (destruct Htype as [-> | ->]; reflexivity).
    assert (Hsrc : src_address env self = internal_address self).
    { unfold src_address, is_expansion_type, internal_address. now rewrite Happ. }
    assert (Hshown : forall u, expanded_address_shown env self width u = false).
    { intros u. unfold expanded_address_shown, is_expansion_type. rewrite Happ.
      cbn [negb]. now rewrite andb_false_r. }
    unfold _get_listing_content, listing_fields. rewrite Hd. cbn [bind].
    change (len (LABEL_FORMAT "" "" "" "") + LABEL_MIN_PADDING) with 11.
    assert (Hfields : ip_src_dst env self d = (ljust 21 d, ljust 26 (internal_address self))).
    { unfold ip_src_dst. rewrite Hsrc. destruct Htype as [-> | ->]; reflexivity. }
    rewrite Hfields. cbv beta iota zeta. rewrite Hshown.
    destruct (get_etc_content_returns env self
                (width - (11 + (len (ljust 21 d) + len (ljust 26 (internal_address self)))))
                IP_ADDRESS) as [etc Hetc].
    exists etc. rewrite Hetc. cbn [bind]. split; [reflexivity|].
    unfold LABEL_FORMAT, LABEL_MIN_PADDING.
    destruct Htype as [Ht | Ht]; rewrite Ht; reflexivity.
  - intros Hin.
    assert (Hfp : get_fingerprint_or env self "UNKNOWN" = "UNKNOWN").
    { unfold get_fingerprint_or, get_fingerprint. now rewrite Hin. }
    unfold _get_listing_content, listing_fields.
    destruct (get_destination_label_returns env self 26 true) as [d ->]. cbn [bind].
    rewrite Hin, Hfp.
    change (len (LABEL_FORMAT "" "" "" "") + LABEL_MIN_PADDING
            + (len "localhost" + len (ljust 40 "UNKNOWN"))) with 60.
    destruct (get_etc_content_returns env self (width - 60) FINGERPRINT) as [etc Hetc].
    exists etc. rewrite Hetc. cbn [bind]. split; reflexivity.
  - intros mode src dst etc used_space Hfields.
    unfold _get_listing_content. rewrite Hfields. cbn [bind].
    unfold LABEL_FORMAT, LABEL_MIN_PADDING. destruct (my_type self); reflexivity.
Qed.

Lemma inbound_row_swapped_witness :
  exists etc_in etc_out,
    _get_listing_content Demo.env Demo.inbound 131 IP_ADDRESS
    = Ret ("<scrubbed>:50123 (us)     " +++ "  -->  "
           +++ ("82.1.2.3:9001        " +++ "  -->  " +++ "10.0.0.5:9001")
           +++ "  " +++ etc_in
           +++ spaces (131 - (11 + (21 + 26) + 28 + len etc_in) + 2)) /\
    _get_listing_content Demo.env (with_type OUTBOUND Demo.inbound) 131 IP_ADDRESS
    = Ret (("10.0.0.5:9001        " +++ "  -->  " +++ "82.1.2.3:9001        ")
           +++ "  -->  " +++ "<scrubbed>:50123 (us)     "
           +++ "  " +++ etc_out
           +++ spaces (131 - (11 + (21 + 26) + 28 + len etc_out) + 2)).
Proof.
  destruct (proj1 (inbound_row_swapped Demo.env Demo.inbound 131)
              OUTBOUND "<scrubbed>:50123 (us)" eq_refl (or_introl eq_refl) eq_refl)
    as (etc_in & etc_out & _ & _ & Hrow_in & Hrow_out).
  exists etc_in, etc_out. split; [exact Hrow_in | exact Hrow_out].
Defined.

(** C9, as stated, fails outside the listing by address: listed by
    fingerprint, the inbound row is not the row of the same connection
    as an outbound connection with its fields exchanged.  The inbound
    row has [UNKNOWN] where the other has the fingerprint, and its
    nickname column differs with it. *)
Lemma inbound_row_by_fingerprint_not_swapped :
  _get_listing_content Demo.env Demo.compact_inbound 100 FINGERPRINT
  = Ret ("UNKNOWN                                   -->  localhost"
         +++ "  UNKNOWN                                   ") /\
  _get_listing_content Demo.env (with_type OUTBOUND Demo.compact_inbound) 100 FINGERPRINT
  = Ret ("localhost  -->  ABCDEF0123456789ABCDEF0123456789ABCDEF01"
         +++ "  caerSidi                                  ") /\
  _get_listing_content Demo.env Demo.compact_inbound 100 FINGERPRINT
  <> Ret ("ABCDEF0123456789ABCDEF0123456789ABCDEF01  -->  localhost"
          +++ "  caerSidi                                  ").
Proof. repeat split; vm_compute; try reflexivity; discriminate. Qed.

(* ------------------------------------------------------------------ *)
(** ** The cache and the age *)

(** A call that finds its key in the cache returns the stored list. *)
Lemma get_listing_entry_hit (env : Env) (self : ConnectionLine) (w t : Z) (m : Listing)
    (st : State) (loc : nat) :
  lru_find (line_id self, w, m) (cache st) = Some loc ->
  forall loc' st', get_listing_entry env self w t m st = (Ret loc', st') -> loc' = loc.
Proof.
  intros Hfind loc' st'. unfold get_listing_entry, _get_listing_entry_cached.
  rewrite Hfind. cbn [objects]. destruct (nth_error (objects st loc) 2); intros H.
  - injection H as <- _. reflexivity.
  - discriminate.
Qed.

(** C4 (amended): two calls of [get_listing_entry] with the same width
    and listing mode, under the same collaborators, return the same list
    with the same content but for the age slot.  The age is computed
    from [current_time - start_time] on every call and written into slot
    2 of the list after the cache lookup, so no call returns the age of
    an earlier one.  The list written to is the cached list itself: the
    cache then holds the age of the latest call, and the list returned
    by the first call shows the age of the second.  A call that raises
    leaves the state as it was, and so raises again. *)
Theorem listing_entry_age_respliced (env : Env) (self : ConnectionLine)
    (w t1 t2 : Z) (m : Listing) (st : State) :
  cache_ok env self st ->
  (1 <= maxsize env)%nat ->
  let '(r1, st1) := get_listing_entry env self w t1 m st in
  let '(r2, st2) := get_listing_entry env self w t2 m st1 in
  match r1 with
  | Ret loc =>
      exists skel attr,
        _get_listing_entry env self w m = Ret skel /\
        objects st1 loc = splice (age_label env self t1) skel /\
        nth_error (objects st1 loc) 2 = Some (age_label env self t1, attr) /\
        lru_find (line_id self, w, m) (cache st1) = Some loc /\
        r2 = Ret loc /\
        objects st2 loc = splice (age_label env self t2) skel /\
        nth_error (objects st2 loc) 2 = Some (age_label env self t2, attr) /\
        (forall i, i <> 2%nat ->
           nth_error (objects st2 loc) i = nth_error (objects st1 loc) i)
  | Raise e => st1 = st /\ r2 = Raise e /\ st2 = st
  end.
Proof.
  intros Hok Hsize.
  pose proof (get_listing_entry_spec env self w t1 m st Hok) as H1.
  destruct (get_listing_entry env self w t1 m st) as [r1 st1].
  destruct H1 as [Hok1 H1].
  pose proof (get_listing_entry_spec env self w t2 m st1 Hok1) as H2.
  pose proof (get_listing_entry_hit env self w t2 m st1) as Hhit.
  destruct (get_listing_entry env self w t2 m st1) as [r2 st2].
  destruct H2 as [_ H2].
  destruct r1 as [loc|e].
  - destruct H1 as (skel & Hbody & Hobj1 & Hcached). specialize (Hcached Hsize).
    destruct r2 as [loc2|e2].
    + destruct H2 as (skel2 & Hbody2 & Hobj2 & _).
      rewrite Hbody in Hbody2. injection Hbody2 as <-.
      rewrite (Hhit loc Hcached loc2 st2 eq_refl) in *.
      exists skel, (get_color env (CATEGORY_COLOR env (my_type self))).
      rewrite Hobj1, Hobj2.
      rewrite !(splice_has_slot env self w m skel) by assumption.
      repeat split; try assumption; try reflexivity.
      intros i Hi. now rewrite !splice_off_slot.
    + destruct H2 as [Hraise _]. congruence.
  - destruct H1 as [Hraise ->].
    destruct r2 as [loc2|e2].
    + destruct H2 as (skel2 & Hbody2 & _). congruence.
    + destruct H2 as [Hraise2 ->]. repeat split. congruence.
Qed.

Lemma listing_entry_age_respliced_witness :
  let '(r1, st1) := get_listing_entry Demo.env Demo.outbound 150 1060 IP_ADDRESS empty_state in
  let '(r2, st2) := get_listing_entry Demo.env Demo.outbound 150 1180 IP_ADDRESS st1 in
  match r1 with
  | Ret loc =>
      exists skel attr,
        _get_listing_entry Demo.env Demo.outbound 150 IP_ADDRESS = Ret skel /\
        objects st1 loc = splice (age_label Demo.env Demo.outbound 1060) skel /\
        nth_error (objects st1 loc) 2 = Some (age_label Demo.env Demo.outbound 1060, attr) /\
        lru_find (line_id Demo.outbound, 150, IP_ADDRESS) (cache st1) = Some loc /\
        r2 = Ret loc /\
        objects st2 loc = splice (age_label Demo.env Demo.outbound 1180) skel /\
        nth_error (objects st2 loc) 2 = Some (age_label Demo.env Demo.outbound 1180, attr) /\
        (forall i, i <> 2%nat ->
           nth_error (objects st2 loc) i = nth_error (objects st1 loc) i)
  | Raise e => st1 = empty_state /\ r2 = Raise e /\ st2 = empty_state
  end.
Proof.
  apply (listing_entry_age_respliced Demo.env Demo.outbound 150 1060 1180
           IP_ADDRESS empty_state).
  - apply cache_ok_empty.
  - cbn. lia.
Defined.

(** C4, as stated, fails in one part: the age is in the cached payload.
    After a first call the list the cache holds for the key is the list
    that was returned, with the age of that call in its slot 2, where
    the body had put six spaces. *)
Lemma cached_payload_holds_age :
  nth_error
    match _get_listing_entry Demo.env Demo.outbound 150 IP_ADDRESS with
    | Ret skel => skel
    | Raise _ => []
    end 2 = Some ("      ", 512) /\
  let st1 := snd (get_listing_entry Demo.env Demo.outbound 150 1060 IP_ADDRESS empty_state) in
  lru_find (line_id Demo.outbound, 150, IP_ADDRESS) (cache st1) = Some 0%nat /\
  nth_error (objects st1 0%nat) 2 = Some ("  1.0m", 512).
Proof. repeat split; vm_compute; reflexivity. Qed.

(* ------------------------------------------------------------------ *)
(** ** Worked examples *)

(** The examples of [crop]'s documentation. *)
Example crop_doc_17 :
  crop "This is a looooong message" 17 4 ELLIPSE = Ret "This is a looo...".
Proof. reflexivity. Qed.

Example crop_doc_12 :
  crop "This is a looooong message" 12 4 ELLIPSE = Ret "This is a...".
Proof. reflexivity. Qed.

Example crop_doc_3 :
  crop "This is a looooong message" 3 4 ELLIPSE = Ret "".
Proof. reflexivity. Qed.

(** The content of an outbound row of the demo relay in 150 columns,
    listed by address. *)
Example outbound_content_150 :
  _get_listing_content Demo.env Demo.outbound 150 IP_ADDRESS
  = Ret ("10.0.0.5:9001          -->  82.1.2.3:9001          -->  5.6.7.8:443 (us)          "
         +++ "  ABCDEF0123456789ABCDEF0123456789ABCDEF01  caerSidi                ").
Proof. vm_compute. reflexivity. Qed.

(** An inbound row that shows the internal address accounts 28
    characters for it but appends it unpadded: the row of 150 columns is
    8 characters short, the 13 characters of the address against 21. *)
Example inbound_expanded_row_150 :
  fst (get_listing_entry Demo.env Demo.inbound 150 1060 IP_ADDRESS empty_state) = Ret 0%nat /\
  len (row_text (objects
         (snd (get_listing_entry Demo.env Demo.inbound 150 1060 IP_ADDRESS empty_state))
         0%nat)) = 142.
Proof. vm_compute. split; reflexivity. Qed.

(* ------------------------------------------------------------------ *)
(** ** [nyx.join] *)

Lemma concat_snoc (sep e : string) (done : list string) :
  done <> [] -> String.concat sep (done ++ [e]) = String.concat sep done +++ sep +++ e.
Proof.
  induction done as [|x done IH]; [contradiction|]. intros _.
  destruct done as [|y done].
  - reflexivity.
  - change (String.concat sep ((x :: y :: done) ++ [e]))
      with (x +++ sep +++ String.concat sep ((y :: done) ++ [e])).
    rewrite IH by discriminate.
    change (String.concat sep (x :: y :: done))
      with (x +++ sep +++ String.concat sep (y :: done)).
    now rewrite !append_assoc.
Qed.

Lemma len_concat_firstn_le (sep : string) (l : list string) (k : nat) :
  len (String.concat sep (firstn k l)) <= len (String.concat sep l).
Proof.
  revert k. induction l as [|x l IH]; intros k.
  { destruct k; cbn [firstn]; lia. }
  destruct k as [|k]; cbn [firstn].
  { change (len (String.concat sep [])) with 0. apply len_nonneg. }
  specialize (IH k).
  destruct l as [|y l].
  - destruct k; cbn [firstn]; lia.
  - destruct k as [|k].
    + cbn [firstn]. change (String.concat sep [x]) with x.
      change (String.concat sep (x :: y :: l)) with (x +++ sep +++ String.concat sep (y :: l)).
      rewrite !len_app. pose proof (len_nonneg sep).
      pose proof (len_nonneg (String.concat sep (y :: l))). lia.
    + change (firstn (S k) (y :: l)) with (y :: firstn k l) in *.
      change (String.concat sep (x :: y :: firstn k l))
        with (x +++ sep +++ String.concat sep (y :: firstn k l)).
      change (String.concat sep (x :: y :: l)) with (x +++ sep +++ String.concat sep (y :: l)).
      rewrite !len_app. lia.
Qed.

Lemma join_loop_bound (joiner : string) (size : Z) (entries : list string) (result : string) :
  len result <= Z.max 0 size ->
  len (nyx.join_loop joiner size result entries) <= Z.max 0 size.
Proof.
  revert result. induction entries as [|entry entries IH]; intros result H; cbn [nyx.join_loop].
  - assumption.
  - match goal with |- context [size <? len ?n] => destruct (Z.ltb_spec size (len n)) end.
    + assumption.
    + apply IH. lia.
Qed.

(** X1: with a size given, what [join] returns is never longer than the
    size; for a negative size it is empty. *)
Theorem nyx_join_within_size (entries : list string) (joiner : string) (size : Z) :
  len (nyx.join entries joiner (Some size)) <= Z.max 0 size.
Proof.
  unfold nyx.join. apply join_loop_bound. change (len "") with 0. lia.
Qed.

(** Once something is joined, the loop goes on joining entries until one
    does not fit. *)
Lemma join_loop_prefix (joiner : string) (size : Z) (rest done : list string) :
  done <> [] -> String.concat joiner done <> "" ->
  exists k,
    (k <= List.length rest)%nat /\
    nyx.join_loop joiner size (String.concat joiner done) rest
    = String.concat joiner (done ++ firstn k rest) /\
    (k = List.length rest \/
     size < len (String.concat joiner (done ++ firstn (S k) rest))).
Proof.
  revert done. induction rest as [|e rest IH]; intros done Hdone Hne.
  - exists 0%nat. cbn. rewrite app_nil_r. auto.
  - cbn [nyx.join_loop].
    destruct (String.concat joiner done) as [|c r] eqn:Hres; [contradiction|].
    rewrite <- Hres.
    change (Py.join joiner [String.concat joiner done; e])
      with (String.concat joiner done +++ joiner +++ e).
    rewrite <- concat_snoc by assumption.
    destruct (Z.ltb_spec size (len (String.concat joiner (done ++ [e])))) as [Hbig|Hfit].
    + exists 0%nat. cbn [firstn]. rewrite app_nil_r.
      split; [cbn; lia|]. split; [reflexivity|]. right. assumption.
    + destruct (IH (done ++ [e])%list) as (k & Hk & Hloop & Hmax).
      * destruct done; discriminate.
      * rewrite concat_snoc by assumption. rewrite Hres. discriminate.
      * exists (S k). cbn [firstn List.length].
        rewrite <- app_assoc in Hloop, Hmax. cbn [app] in Hloop, Hmax.
        split; [lia|]. split; [assumption|].
        destruct Hmax as [->|Hmax]; [left; reflexivity | right; assumption].
Qed.

(** X2: when the first entry is not empty, [join] with a size returns
    the entries joined up to some point, and stops only at the end or
    before the first entry with which the text would exceed the size. *)
Theorem nyx_join_longest_prefix (entries : list string) (joiner : string) (size : Z) :
  hd_error entries <> Some "" ->
  exists k,
    (k <= List.length entries)%nat /\
    nyx.join entries joiner (Some size) = Py.join joiner (firstn k entries) /\
    (k = List.length entries \/
     size < len (Py.join joiner (firstn (S k) entries))).
Proof.
  intros Hhd. unfold nyx.join, Py.join.
  destruct entries as [|e rest].
  - exists 0%nat. cbn. auto.
  - cbn [nyx.join_loop].
    destruct (Z.ltb_spec size (len e)) as [Hbig|Hfit].
    + exists 0%nat. cbn [firstn]. split; [cbn; lia|]. split; [reflexivity|].
      right. assumption.
    + destruct (join_loop_prefix joiner size rest [e]) as (k & Hk & Hloop & Hmax).
      * discriminate.
      * cbn. intros ->. apply Hhd. reflexivity.
      * exists (S k). cbn [firstn List.length].
        change (String.concat joiner [e]) with e in Hloop.
        split; [lia|]. split; [assumption|].
        destruct Hmax as [->|Hmax]; [left; reflexivity | right; assumption].
Qed.

Lemma nyx_join_longest_prefix_witness :
  exists k,
    (k <= 5)%nat /\
    nyx.join ["This"; "is"; "a"; "looooong"; "message"] " " (Some 17)
    = Py.join " " (firstn k ["This"; "is"; "a"; "looooong"; "message"]) /\
    (k = 5%nat \/
     17 < len (Py.join " " (firstn (S k) ["This"; "is"; "a"; "looooong"; "message"]))).
Proof.
  apply (nyx_join_longest_prefix ["This"; "is"; "a"; "looooong"; "message"] " " 17).
  discriminate.
Defined.

(** X3: when the first entry is not empty and the whole text fits the
    size, [join] with the size returns what [joiner.join(entries)]
    does. *)
Theorem nyx_join_all_when_fits (entries : list string) (joiner : string) (size : Z) :
  hd_error entries <> Some "" ->
  len (Py.join joiner entries) <= size ->
  nyx.join entries joiner (Some size) = nyx.join entries joiner None.
Proof.
  intros Hhd Hfit. unfold nyx.join, Py.join in *.
  destruct entries as [|e rest]; [reflexivity|].
  cbn [nyx.join_loop].
  pose proof (len_concat_firstn_le joiner (e :: rest) 1) as Hfirst.
  cbn [firstn] in Hfirst. change (String.concat joiner [e]) with e in Hfirst.
  destruct (Z.ltb_spec size (len e)); [lia|].
  destruct (join_loop_prefix joiner size rest [e]) as (k & Hk & Hloop & Hmax).
  - discriminate.
  - cbn. intros ->. apply Hhd. reflexivity.
  - change (String.concat joiner [e]) with e in Hloop. rewrite Hloop.
    destruct Hmax as [->|Hmax].
    + now rewrite firstn_all.
    + pose proof (len_concat_firstn_le joiner (e :: rest) (S (S k))) as Hle.
      cbn [firstn app] in Hle, Hmax. lia.
Qed.

Lemma nyx_join_all_when_fits_witness :
  nyx.join ["This"; "is"; "a"; "looooong"; "message"] " " (Some 26)
  = nyx.join ["This"; "is"; "a"; "looooong"; "message"] " " None.
Proof.
  apply (nyx_join_all_when_fits ["This"; "is"; "a"; "looooong"; "message"] " " 26).
  - discriminate.
  - vm_compute. discriminate.
Defined.

(** X4: with a size that is not negative, empty entries at the front
    are passed over: the text starts with the first entry that is not
    empty, with no joiner before it. *)
Theorem nyx_join_skips_leading_empty (n : nat) (entries : list string)
    (joiner : string) (size : Z) :
  0 <= size ->
  nyx.join (repeat "" n ++ entries) joiner (Some size)
  = nyx.join entries joiner (Some size).
Proof.
  intros Hsize. unfold nyx.join. induction n as [|n IH]; [reflexivity|].
  cbn [repeat app nyx.join_loop]. change (len "") with 0.
  destruct (Z.ltb_spec size 0); [lia | assumption].
Qed.

Lemma nyx_join_skips_leading_empty_witness :
  nyx.join (repeat "" 2 ++ ["a"; "b"]) ", " (Some 10) = nyx.join ["a"; "b"] ", " (Some 10) /\
  nyx.join ["a"; "b"] ", " (Some 10) = "a, b" /\
  Py.join ", " (repeat "" 2 ++ ["a"; "b"]) = ", , a, b".
Proof.
  split; [|split; reflexivity].
  apply (nyx_join_skips_leading_empty 2 ["a"; "b"] ", " 10). lia.
Defined.

(** The examples of [join]'s documentation. *)
Example nyx_join_doc_18 :
  nyx.join ["This"; "is"; "a"; "looooong"; "message"] " " (Some 18) = "This is a looooong".
Proof. reflexivity. Qed.

Example nyx_join_doc_17 :
  nyx.join ["This"; "is"; "a"; "looooong"; "message"] " " (Some 17) = "This is a".
Proof. reflexivity. Qed.

Example nyx_join_doc_2 :
  nyx.join ["This"; "is"; "a"; "looooong"; "message"] " " (Some 2) = "".
Proof. reflexivity. Qed.

(* ------------------------------------------------------------------ *)
(** ** More on the destination label *)

(** X5: [get_destination_label] returns for every argument, and for a
    [max_length] that is not negative the label is at most that long. *)
Theorem destination_label_within_max_length (env : Env) (self : ConnectionLine)
    (max_length : Z) (include_locale : bool) :
  exists label,
    get_destination_label env self max_length include_locale = Ret label /\
    (0 <= max_length -> len label <= max_length).
Proof.
  destruct (get_destination_label_returns env self max_length include_locale) as [d Hd].
  exists d. split; [assumption|]. intros Hn.
  eapply len_get_destination_label; eassumption.
Qed.

Lemma destination_label_within_max_length_witness :
  (exists label,
     get_destination_label Demo.env Demo.torrent 15 true = Ret label /\ len label <= 15) /\
  (exists label, get_destination_label Demo.env Demo.torrent (-3) true = Ret label).
Proof.
  split.
  - destruct (destination_label_within_max_length Demo.env Demo.torrent 15 true)
      as (label & Hlabel & Hlen).
    exists label. split; [exact Hlabel | apply Hlen; lia].
  - destruct (destination_label_within_max_length Demo.env Demo.torrent (-3) true)
      as (label & Hlabel & _).
    exists label. exact Hlabel.
Defined.

(** X6: the annotation in parentheses is shown whole or not at all.
    With locale codes of at most two characters, the label is either
    the address and port cut to [max_length], or the address and port
    in full followed by a complete [" (...)"]; the final cut never goes
    through an annotation. *)
Theorem destination_annotation_whole_or_absent (env : Env) (self : ConnectionLine)
    (max_length : Z) (include_locale : bool) :
  len (get_locale env self "??") <= 2 ->
  exists label,
    get_destination_label env self max_length include_locale = Ret label /\
    (label = slice_to (address_label self +++ port_label env self) max_length \/
     exists extra,
       label = (address_label self +++ port_label env self) +++ " (" +++ extra +++ ")").
Proof.
  intros Hlocale. unfold get_destination_label.
  set (d0 := address_label self +++ port_label env self).
  destruct (Z.leb_spec (len d0 + 5) max_length) as [Hroom|]; [|cbn [bind]; eauto].
  assert (Hfits : forall p, len p <= max_length - len d0 - 3 ->
            slice_to (d0 +++ " (" +++ p +++ ")") max_length = d0 +++ " (" +++ p +++ ")").
  { intros p Hp. apply slice_to_fits. rewrite !len_app.
    change (len " (") with 2. change (len ")") with 1. lia. }
  destruct (category_eqb (my_type self) EXIT && dest_include_port env self).
  - destruct (truthy (port_usage env (remote_port (connection self)))) as [purpose|];
      [|cbn [bind]; eauto].
    match goal with |- context [crop ?p ?n 4 HYPHEN] =>
      destruct (crop_returns p n 4 HYPHEN) as [r Hr]; [lia | lia | lia |]; rewrite Hr;
      apply crop_len in Hr; [|cbn; lia]
    end.
    cbn [bind]. rewrite Hfits by assumption. eauto.
  - destruct (negb (is_private_address env (remote_address (connection self))));
      [|cbn [bind]; eauto].
    destruct (include_locale && negb (is_geoip_unavailable env)); [|cbn [bind]; eauto].
    cbn [bind]. change (join ", " [get_locale env self "??"]) with (get_locale env self "??").
    rewrite Hfits by lia. eauto.
Qed.

Lemma destination_annotation_whole_or_absent_witness :
  exists label,
    get_destination_label Demo.env Demo.torrent 15 true = Ret label /\
    (label = slice_to (address_label Demo.torrent +++ port_label Demo.env Demo.torrent) 15 \/
     exists extra,
       label = (address_label Demo.torrent +++ port_label Demo.env Demo.torrent)
               +++ " (" +++ extra +++ ")").
Proof.
  apply (destination_annotation_whole_or_absent Demo.env Demo.torrent 15 true).
  vm_compute. discriminate.
Defined.

(** X7: a private entry that is not an exit still gets the locale of
    its remote address: when the address is not on a private network,
    locale lookups are on and the label has room, the label is the scrub
    token, the port and the locale code of the real address. *)
Theorem private_label_shows_locale (env : Env) (self : ConnectionLine) (max_length : Z) :
  is_private (_entry self) = true ->
  my_type self <> EXIT ->
  is_private_address env (remote_address (connection self)) = false ->
  is_geoip_unavailable env = false ->
  len (get_locale env self "??") <= 2 ->
  len ("<scrubbed>" +++ port_label env self) + 5 <= max_length ->
  get_destination_label env self max_length true
  = Ret ("<scrubbed>" +++ port_label env self +++ " (" +++ get_locale env self "??" +++ ")").
Proof.
  intros Hprivate Htype Hpublic Hgeo Hlocale Hroom.
  unfold get_destination_label, address_label. rewrite Hprivate, Hpublic, Hgeo.
  destruct (Z.leb_spec (len ("<scrubbed>" +++ port_label env self) + 5) max_length); [|lia].
  replace (category_eqb (my_type self) EXIT) with false
    by (destruct (my_type self); try reflexivity; contradiction).
  cbn [andb negb bind].
  change (join ", " [get_locale env self "??"]) with (get_locale env self "??").
  rewrite slice_to_fits.
  - now rewrite append_assoc.
  - rewrite !len_app in *. change (len " (") with 2. change (len ")") with 1. lia.
Qed.

Lemma private_label_shows_locale_witness :
  get_destination_label Demo.env Demo.inbound 26 true = Ret "<scrubbed>:50123 (us)".
Proof.
  apply (private_label_shows_locale Demo.env Demo.inbound 26);
    try reflexivity; try discriminate; vm_compute; discriminate.
Defined.

(* ------------------------------------------------------------------ *)
(** ** More on the optional columns *)

Lemma etc_content_relay_width_witness :
  exists s,
    get_etc_content Demo.env Demo.outbound 100 FINGERPRINT = Ret s /\ len s = 100.
Proof.
  apply (etc_content_relay_width Demo.env Demo.outbound 100 FINGERPRINT).
  - vm_compute. discriminate.
  - reflexivity.
  - lia.
Defined.

(** The guards of all columns fail: no text and no space used. *)
Lemma etc_columns_no_column (env : Env) (self : ConnectionLine)
    (width : Z) (mode : Listing) :
  (showColumn_fingerprint env = false /\ showColumn_nickname env = false /\
   showColumn_destination env = false) \/ width <= 10 ->
  etc_columns env self width mode = Ret ("", 0).
Proof.
  intros Hoff. unfold etc_columns, fingerprint_column.
  destruct (get_destination_label_returns env self 26 true) as [d ->]. cbn [bind].
  destruct Hoff as [(Hf & Hn & Hd)|Hw].
  - rewrite Hf, Hn, Hd. rewrite !andb_false_r.
    destruct mode; try reflexivity.
    destruct (0 + 17 <? width); reflexivity.
  - destruct mode;
      repeat (cbv beta iota zeta; cbn [andb];
              match goal with |- context [?a <? width] =>
                destruct (Z.ltb_spec a width); [lia|]
              end);
      reflexivity.
Qed.

(** X9: a relay's field is blank, spaces only, when no column can be
    drawn: with the three column toggles off at any width, and at every
    width of 10 or less whatever the toggles. *)
Theorem etc_content_blank (env : Env) (self : ConnectionLine) (width : Z) (mode : Listing) :
  is_application (my_type self) = false ->
  (showColumn_fingerprint env = false /\ showColumn_nickname env = false /\
   showColumn_destination env = false) \/ width <= 10 ->
  get_etc_content env self width mode = Ret (spaces (Z.abs width)).
Proof.
  intros Happ Hoff. unfold get_etc_content. rewrite Happ.
  rewrite etc_columns_no_column by assumption.
  cbn [bind fst]. unfold ljust_dyn, ljust.
  change (len "") with 0. now rewrite Z.sub_0_r.
Qed.

Lemma etc_content_blank_witness :
  get_etc_content Demo.env Demo.outbound 10 IP_ADDRESS = Ret "          ".
Proof.
  apply (etc_content_blank Demo.env Demo.outbound 10 IP_ADDRESS);
    [reflexivity | right; lia].
Defined.

(** X10: the expanded address never takes the place of the fingerprint
    column.  Whenever the internal address is shown, the fingerprint
    column is drawn in the 28 characters less that remain exactly when
    it would be drawn without the internal address. *)
Theorem expanded_address_keeps_fingerprint (env : Env) (self : ConnectionLine)
    (width used_space : Z) :
  expanded_address_shown env self width used_space = true ->
  fingerprint_column env (width - (used_space + 28)) 0
  = fingerprint_column env (width - used_space) 0.
Proof.
  unfold expanded_address_shown, fingerprint_column. intros H.
  destruct (showColumn_fingerprint env); [|now rewrite !andb_false_r].
  rewrite !andb_true_r in *.
  apply andb_prop in H. destruct H as [H _]. apply andb_prop in H. destruct H as [H _].
  apply andb_prop in H. destruct H as [_ H].
  destruct (Z.ltb_spec (used_space + 28) width); [|discriminate].
  apply orb_prop in H.
  destruct (Z.ltb_spec (0 + 42) (width - (used_space + 28))),
           (Z.ltb_spec (0 + 42) (width - used_space)); try reflexivity;
    destruct H as [H|H]; apply Z.ltb_lt in H; lia.
Qed.

Lemma expanded_address_keeps_fingerprint_witness :
  fingerprint_column Demo.env (131 - (58 + 28)) 0 = fingerprint_column Demo.env (131 - 58) 0.
Proof.
  apply (expanded_address_keeps_fingerprint Demo.env Demo.outbound 131 58). reflexivity.
Defined.

(* ------------------------------------------------------------------ *)
(** ** More on the listing content *)

(** X11: an inbound row that shows the internal address counts 28
    characters for it and appends it as it is, so, listing by address,
    the content of such a row is not [width] characters long but
    [width - 21] and the length of the internal address. *)
Theorem inbound_expanded_content_length (env : Env) (self : ConnectionLine)
    (width : Z) (d : string) :
  my_type self = INBOUND ->
  get_destination_label env self 26 true = Ret d ->
  expanded_address_shown env self width
    (11 + (len (ljust 21 (src_address env self)) + len (ljust 26 d))) = true ->
  exists content,
    _get_listing_content env self width IP_ADDRESS = Ret content /\
    len content = width - 21 + len (internal_address self).
Proof.
  intros Htype Hd Hshown.
  assert (Hfp : len (get_fingerprint_or env self "UNKNOWN") <= 40).
  { unfold get_fingerprint_or, get_fingerprint. rewrite Htype. cbv. discriminate. }
  assert (Hw : 11 + (len (ljust 21 (src_address env self)) + len (ljust 26 d)) + 28 < width).
  { unfold expanded_address_shown in Hshown.
    match goal with |- ?a < width => destruct (Z.ltb_spec a width); [assumption|] end.
    rewrite !andb_false_r in Hshown. cbn in Hshown.
    rewrite ?andb_false_r in Hshown. discriminate. }
  unfold _get_listing_content, listing_fields. rewrite Hd. cbn [bind].
  change (len (LABEL_FORMAT "" "" "" "") + LABEL_MIN_PADDING) with 11.
  unfold ip_src_dst. rewrite Htype. cbv beta iota zeta. rewrite Hshown.
  match goal with |- context [get_etc_content env self ?n IP_ADDRESS] =>
    destruct (get_etc_content_bound env self Hfp n IP_ADDRESS)
      as (etc & Hetc & Hlen); [lia|]; rewrite Hetc
  end.
  cbn [bind]. eexists. split; [reflexivity|].
  unfold LABEL_MIN_PADDING.
  rewrite len_LABEL_FORMAT, len_spaces, !len_app, !len_ljust in *.
  change (len "  -->  ") with 7. lia.
Qed.

Lemma inbound_expanded_content_length_witness :
  exists content,
    _get_listing_content Demo.env Demo.inbound 131 IP_ADDRESS = Ret content /\
    len content = 131 - 21 + len (internal_address Demo.inbound).
Proof.
  apply (inbound_expanded_content_length Demo.env Demo.inbound 131 "<scrubbed>:50123 (us)");
    reflexivity.
Defined.

(** X14: listing by address or by fingerprint, [_get_listing_content]
    returns at every width, negative ones included. *)
Theorem listing_content_returns (env : Env) (self : ConnectionLine)
    (width : Z) (mode : Listing) :
  mode <> NICKNAME ->
  exists content, _get_listing_content env self width mode = Ret content.
Proof.
  intros Hmode. unfold _get_listing_content, listing_fields.
  destruct (get_destination_label_returns env self 26 true) as [d ->]. cbn [bind].
  destruct mode; [| | contradiction].
  - destruct (ip_src_dst env self d) as [src dst].
    match goal with |- context [if ?b then _ else _] => destruct b end;
      match goal with |- context [get_etc_content env self ?n IP_ADDRESS] =>
        destruct (get_etc_content_returns env self n IP_ADDRESS) as [etc ->]
      end;
      cbn [bind]; destruct (my_type self); eauto.
  - match goal with |- context [get_etc_content env self ?n FINGERPRINT] =>
      destruct (get_etc_content_returns env self n FINGERPRINT) as [etc ->]
    end.
    cbn [bind]. destruct (my_type self); eauto.
Qed.

Lemma listing_content_returns_witness :
  exists content, _get_listing_content Demo.env Demo.outbound (-19) FINGERPRINT = Ret content.
Proof. apply (listing_content_returns Demo.env Demo.outbound (-19) FINGERPRINT). discriminate. Defined.

(** X15: listing by nickname, the row of a relay connection is not
    built below 55 columns: the space left for the two nicknames is
    negative and cropping to it raises [ValueError]. *)
Theorem nickname_listing_raises_when_narrow (env : Env) (self : ConnectionLine) (w : Z) :
  is_application (my_type self) = false ->
  w < 55 ->
  _get_listing_entry env self w NICKNAME = Raise ValueError.
Proof.
  intros Happ Hw. unfold _get_listing_entry, _get_listing_content, listing_fields.
  destruct (get_destination_label_returns env self 26 true) as [d ->]. cbn [bind].
  change (len (LABEL_FORMAT "" "" "" "") + LABEL_MIN_PADDING) with 11.
  unfold get_etc_content. rewrite Happ.
  rewrite etc_columns_no_column by (right; lia).
  cbn [bind fst]. rewrite len_ljust_dyn. change (len "") with 0.
  set (src := or_default (get_conf_nickname env) "UNKNOWN").
  set (dst := match my_type self with
              | CONTROL => src
              | _ => get_nickname env self "UNKNOWN"
              end).
  set (base_space := w - 19 - (11 + Z.max (Z.abs (w - 19 - 11 - 50)) 0)).
  assert (Hbase : base_space < 0) by (subst base_space; lia).
  pose proof (len_nonneg src). pose proof (len_nonneg dst).
  destruct (Z.ltb_spec base_space (len src + len dst)); [|lia].
  assert (Hthird : base_space / 3 < 0) by (apply Z.div_lt_upper_bound; lia).
  unfold crop at 1.
  destruct (Z.leb_spec (len src) (base_space / 3)); [lia|].
  destruct (Z.ltb_spec (base_space / 3) 0); [|lia].
  reflexivity.
Qed.

Lemma nickname_listing_raises_when_narrow_witness :
  _get_listing_entry Demo.env Demo.outbound 54 NICKNAME = Raise ValueError.
Proof.
  apply (nickname_listing_raises_when_narrow Demo.env Demo.outbound 54); [reflexivity | lia].
Defined.

(* ------------------------------------------------------------------ *)
(** ** More on the cache and the detail page *)

(** X12: the cache is keyed on the line, the width and the listing type
    and on nothing else.  A row built under one state of the
    collaborators is returned, with the age alone renewed, by a later
    call with the same width and listing type whatever the
    collaborators answer by then. *)
Theorem cached_row_outlives_collaborators (env1 env2 : Env) (self : ConnectionLine)
    (w t1 t2 : Z) (m : Listing) (st : State) :
  cache_ok env1 self st ->
  (1 <= maxsize env1)%nat ->
  let '(r1, st1) := get_listing_entry env1 self w t1 m st in
  let '(r2, st2) := get_listing_entry env2 self w t2 m st1 in
  forall loc, r1 = Ret loc ->
    exists skel,
      _get_listing_entry env1 self w m = Ret skel /\
      r2 = Ret loc /\
      objects st2 loc = splice (age_label env2 self t2) skel.
Proof.
  intros Hok Hsize.
  pose proof (get_listing_entry_spec env1 self w t1 m st Hok) as H1.
  destruct (get_listing_entry env1 self w t1 m st) as [r1 st1].
  destruct H1 as [_ H1].
  unfold get_listing_entry at 1, _get_listing_entry_cached.
  destruct r1 as [loc|e].
  - destruct H1 as (skel & Hbody & Hobj & Hcached). specialize (Hcached Hsize).
    rewrite Hcached. cbn [objects].
    rewrite Hobj, (splice_has_slot env1 self w m skel _ Hbody).
    intros loc' Hloc. injection Hloc as <-.
    exists skel. split; [assumption|]. split; [reflexivity|].
    cbn [objects snd]. unfold set_object. rewrite Nat.eqb_refl.
    pose proof (splice_splice (age_label env2 self t2) (age_label env1 self t1) skel _
                  (splice_has_slot env1 self w m skel _ Hbody)) as Hnew.
    exact Hnew.
  - match goal with |- match ?x with pair _ _ => _ end => destruct x as [r2 st2] end.
    intros loc Hloc. discriminate.
Qed.

Lemma cached_row_outlives_collaborators_witness :
  let '(r1, st1) :=
    get_listing_entry Demo.env Demo.outbound 150 1060 IP_ADDRESS empty_state in
  let '(r2, st2) :=
    get_listing_entry (with_ip_to_country (fun _ => Some "de") Demo.env)
      Demo.outbound 150 1120 IP_ADDRESS st1 in
  forall loc, r1 = Ret loc ->
    exists skel,
      _get_listing_entry Demo.env Demo.outbound 150 IP_ADDRESS = Ret skel /\
      r2 = Ret loc /\
      objects st2 loc
      = splice (age_label (with_ip_to_country (fun _ => Some "de") Demo.env)
                  Demo.outbound 1120) skel.
Proof.
  apply (cached_row_outlives_collaborators Demo.env
           (with_ip_to_country (fun _ => Some "de") Demo.env)
           Demo.outbound 150 1060 1120 IP_ADDRESS empty_state).
  - apply cache_ok_empty.
  - cbn. lia.
Defined.

(** X13: the detail page of a private entry does not depend on the
    locale lookup: its locale line reads ["??"] and its address line
    carries no locale, whatever the lookup answers. *)
Theorem private_details_ignore_locale (env : Env) (self : ConnectionLine) (w : Z)
    (f : string -> option string) :
  is_private (_entry self) = true ->
  get_details (with_ip_to_country f env) self w = get_details env self w.
Proof.
  intros Hprivate.
  unfold get_details, _get_detail_content, detail_lines, get_destination_label,
    address_label, port_label, dest_include_port, get_fingerprint, my_type.
  rewrite Hprivate. reflexivity.
Qed.

Lemma private_details_ignore_locale_witness :
  get_details (with_ip_to_country (fun _ => Some "de") Demo.env) Demo.inbound 80
  = get_details Demo.env Demo.inbound 80.
Proof.
  apply (private_details_ignore_locale Demo.env Demo.inbound 80 (fun _ => Some "de")).
  reflexivity.
Defined.

(** X16: when the connection has no fingerprint and no relay is known
    at its address, the detail page of 25 columns or more reads the
    address line, the locale line, ["No consensus data found"] and four
    blank lines. *)
Theorem details_without_consensus (env : Env) (self : ConnectionLine) (w : Z) :
  get_fingerprint env self = None ->
  get_all_relay_fingerprints env (remote_address (connection self)) = [] ->
  25 <= w ->
  exists address locale,
    _get_detail_content env self w
    = Ret [address; locale; "No consensus data found"; ""; ""; ""; ""].
Proof.
  intros Hfp Hnone Hw. unfold _get_detail_content, detail_lines.
  destruct (get_destination_label_returns env self (w - 11) false) as [d ->].
  rewrite Hfp, Hnone. cbn [bind repeat].
  repeat (rewrite list_set_returns by (cbn; lia); cbn [bind replace_nth]).
  cbn [mapM].
  match goal with |- context [crop ?a (w - 2) 4 ELLIPSE] =>
    destruct (crop_returns a (w - 2) 4 ELLIPSE) as [address ->]; try lia
  end.
  cbn [bind].
  match goal with |- context [crop ("locale: " +++ ?x) (w - 2) 4 ELLIPSE] =>
    destruct (crop_returns ("locale: " +++ x) (w - 2) 4 ELLIPSE) as [locale ->]; try lia
  end.
  cbn [bind].
  rewrite (crop_fits "No consensus data found")
    by (change (len "No consensus data found") with 23; lia).
  rewrite (crop_fits "") by (change (len "") with 0; lia).
  cbn [bind]. eauto.
Qed.

Lemma details_without_consensus_witness :
  exists address locale,
    _get_detail_content Demo.env Demo.inbound 80
    = Ret [address; locale; "No consensus data found"; ""; ""; ""; ""].
Proof.
  apply (details_without_consensus Demo.env Demo.inbound 80); [reflexivity | reflexivity | lia].
Defined.
